(** * data-validator: the rule-evaluation engine of [validator/core.py]

    A shallow embedding of [validate_data] and of its helpers
    [_coerce_series_to_type], [_regex_mismatch] and [_maybe_cast], together
    with the properties of the validation report that follow from the code.

    Layout of the development:
    - [Py]        Python values, exceptions and the built-in operations the
                  validator applies to cells ([str], [float], [<], [pd.isna]);
    - [Pandas]    the part of pandas the validator calls: Series, DataFrame,
                  [to_numeric], [astype], [duplicated], boolean masks;
    - [Core]      the functions of [validator/core.py], written in a small
                  state-and-exception monad over the [errors] list, and the
                  same violations written as list expressions;
    - [Regex], [Reference]
                  a regular-expression engine and an instance of the
                  library functions left abstract, on which the validator
                  runs inside Rocq;
    - [Examples]  tables and rule sets, among them those of
                  [tests/test_validator.py];
    - [Runs], [ListFacts], [Checks]
                  the loop appends what the list expressions say, and what
                  each check contributes;
    - the properties of the report. *)

From Stdlib Require Import ZArith QArith Qround String Ascii List Lia.
From stdpp Require Import gmap strings list pretty.

Local Open Scope Z_scope.
Local Open Scope string_scope.
Local Open Scope list_scope.

(* ===================================================================== *)
(** ** Python values and built-ins *)
(* ===================================================================== *)

Module Py.

(** [datetime.date]: a calendar date. *)
Record date := Date { year : Z; month : Z; day : Z }.

(** The objects that occur as cells of a table and as rule boundaries.
    [VNull] stands for the missing-value marker of the column at hand
    ([None], [float('nan')], [pd.NA] or [pd.NaT]): [pd.isna] is true exactly
    on it.  [VInt] is a Python [int], [VNpInt] a [numpy.int64] scalar (what
    iterating a masked [Int64] array yields; it is not an instance of [int]),
    [VFloat q] a finite [float] denoted by the rational [q]. *)
Inductive value :=
| VNull
| VInt (n : Z)
| VNpInt (n : Z)
| VFloat (q : Q)
| VStr (s : string)
| VDate (d : date).

(** Exceptions the validator can meet. *)
Inductive exn := TypeError | ValueError | ReError.

Inductive result (A : Type) :=
| Ok (a : A)
| Raise (e : exn).
Arguments Ok {A} a.
Arguments Raise {A} e.

#[export] Instance result_ret : MRet result := fun _ a => Ok a.
#[export] Instance result_bind : MBind result := fun _ _ f m =>
  match m with
  | Ok a => f a
  | Raise e => Raise e
  end.

#[export] Instance result_fmap : FMap result := fun _ _ f m =>
  match m with
  | Ok a => Ok (f a)
  | Raise e => Raise e
  end.

(** The library functions whose results depend on text syntax or on the
    binary representation of floats are kept abstract: every theorem below
    holds for any behaviour of these. *)
Class Runtime := {
  (** [str(x)] for a float [x] *)
  float_repr : Q -> string;
  (** the numeric parser [pd.to_numeric] applies to a text cell:
      an integer, a float, or no number at all *)
  numeric_of_str : string -> option (Z + Q);
  (** [float(s)] for a text [s]; [None] is [ValueError] *)
  float_of_str : string -> option Q;
  (** [pd.to_datetime(s, errors="coerce").dt.date] on the cells of a column:
      every cell becomes a date or the missing-value marker *)
  to_datetime_date : list value -> list value;
  to_datetime_date_length :
    forall l, length (to_datetime_date l) = length l;
  (** [pd.to_datetime(b, errors="coerce").date()] for a scalar [b]:
      a date, [NaT] ([VNull]) or an exception *)
  to_datetime_scalar : value -> result value;
  (** compiled patterns of [re] *)
  re_pattern : Type;
  (** [re.compile(p)]; [None] is [re.error] *)
  re_compile : string -> option re_pattern;
  (** [pattern.fullmatch(s) is not None] *)
  re_fullmatch : re_pattern -> string -> bool
}.

(** [pd.isna(v)] *)
Definition isna (v : value) : bool :=
  match v with
  | VNull => true
  | _ => false
  end.

Definition notna (v : value) : bool := negb (isna v).

(** Left-pads [s] with zeros to width [n]. *)
Fixpoint zfill (n : nat) (s : string) : string :=
  if (n <=? String.length s)%nat then s
  else match n with
       | O => s
       | S n' => "0" ++ zfill n' s
       end.

(** [date.isoformat()], which is what [str] gives for a date. *)
Definition isoformat (d : date) : string :=
  zfill 4 (pretty (year d)) ++ "-" ++ zfill 2 (pretty (month d))
    ++ "-" ++ zfill 2 (pretty (day d)).

(** [str(v)], also what an f-string inserts for [{v}]. *)
Definition str `{Runtime} (v : value) : string :=
  match v with
  | VNull => "nan"
  | VInt n => pretty n
  | VNpInt n => pretty n
  | VFloat q => float_repr q
  | VStr s => s
  | VDate d => isoformat d
  end.

(** [float(b)] *)
Definition float `{Runtime} (b : value) : result value :=
  match b with
  | VNull => Ok VNull
  | VInt n => Ok (VFloat (inject_Z n))
  | VNpInt n => Ok (VFloat (inject_Z n))
  | VFloat q => Ok (VFloat q)
  | VStr s =>
      match float_of_str s with
      | Some q => Ok (VFloat q)
      | None => Raise ValueError
      end
  | VDate _ => Raise TypeError
  end.

(** The number a numeric object denotes. *)
Definition as_number (v : value) : option Q :=
  match v with
  | VInt n => Some (inject_Z n)
  | VNpInt n => Some (inject_Z n)
  | VFloat q => Some q
  | _ => None
  end.

Definition Qltb (a b : Q) : bool :=
  match Qcompare a b with
  | Lt => true
  | _ => false
  end.

Definition date_ltb (a b : date) : bool :=
  ((year a <? year b)
   || ((year a =? year b)
       && ((month a <? month b)
           || ((month a =? month b) && (day a <? day b)))))%Z.

(** [a < b].  Numbers compare by value and a NaN operand makes the
    comparison false; text compares with text and dates with dates; every
    other pairing raises [TypeError] (this includes a date against [NaT]). *)
Definition lt (a b : value) : result bool :=
  match a, b with
  | VStr s, VStr t => Ok (String.ltb s t)
  | VDate d, VDate e => Ok (date_ltb d e)
  | VNull, VNull => Ok false
  | _, _ =>
      match as_number a, as_number b with
      | Some x, Some y => Ok (Qltb x y)
      | Some _, None => if isna b then Ok false else Raise TypeError
      | None, Some _ => if isna a then Ok false else Raise TypeError
      | None, None => Raise TypeError
      end
  end.

(** [a > b] *)
Definition gt (a b : value) : result bool := lt b a.

(** Equality of cells as the hash table behind [duplicated] sees it:
    numbers by value, text and dates structurally, the missing-value marker
    equal to itself. *)
Definition eqb (a b : value) : bool :=
  match a, b with
  | VNull, VNull => true
  | VStr s, VStr t => String.eqb s t
  | VDate d, VDate e =>
      ((year d =? year e) && (month d =? month e) && (day d =? day e))%Z
  | _, _ =>
      match as_number a, as_number b with
      | Some x, Some y => Qeq_bool x y
      | _, _ => false
      end
  end.

(** [x is not None] *)
Definition is_not_None {A} (x : option A) : bool :=
  match x with
  | Some _ => true
  | None => false
  end.

(** [hasattr(v, "year") and hasattr(v, "month")] *)
Definition has_year_month (v : value) : bool :=
  match v with
  | VDate _ => true
  | _ => false
  end.

(** [isinstance(v, (int, float))] *)
Definition is_int_or_float (v : value) : bool :=
  match v with
  | VInt _ | VFloat _ => true
  | _ => false
  end.

End Py.

(* ===================================================================== *)
(** ** The part of pandas the validator calls *)
(* ===================================================================== *)

Module Pandas.
Import Py.

(** A column with its row labels: [s.index] and [s.values], position by
    position. *)
Record Series := { s_index : list Z; s_values : list value }.

(** A table: the row labels [df.index] and the named columns. *)
Record DataFrame := {
  df_index : list Z;
  df_columns : gmap string (list value)
}.

(** Every column has one cell per row. *)
Definition wf (df : DataFrame) : Prop :=
  forall c vs, df_columns df !! c = Some vs -> length vs = length (df_index df).

(** [len(df)] *)
Definition len (df : DataFrame) : nat := length (df_index df).

(** [df.copy()]: a new table with the same content. *)
Definition copy (df : DataFrame) : DataFrame :=
  {| df_index := df_index df; df_columns := df_columns df |}.

(** [df[col]], for a [col] among [df.columns]. *)
Definition getitem (df : DataFrame) (col : string) : option Series :=
  vs ← df_columns df !! col;
  Some {| s_index := df_index df; s_values := vs |}.

(** [s.items()]: the pairs (label, cell) in row order. *)
Definition items (s : Series) : list (Z * value) :=
  zip (s_index s) (s_values s).

(** [l[mask]] for a boolean mask: the entries at the positions where the
    mask is true. *)
Fixpoint select {A} (mask : list bool) (l : list A) : list A :=
  match mask, l with
  | b :: mask', x :: l' =>
      if b then x :: select mask' l' else select mask' l'
  | _, _ => []
  end.

(** [a & b] on boolean columns *)
Definition mask_and (a b : list bool) : list bool := zip_with andb a b.

(** In how many rows [v] occurs. *)
Definition occurrences (v : value) (vals : list value) : nat :=
  length (filter (fun w => eqb v w = true) vals).

(** [keep=False] duplicate marking on the cells of a column: true at every
    row whose cell occurs in two rows or more. *)
Definition duplicated (vals : list value) : list bool :=
  map (fun v => (2 <=? occurrences v vals)%nat) vals.

(** [df.duplicated(subset=[col], keep=False)] *)
Definition df_duplicated (df : DataFrame) (col : string) : list bool :=
  from_option duplicated [] (df_columns df !! col).

(** What [pd.to_numeric] reads in one cell: an integer, a float, or
    nothing (which [errors="coerce"] turns into NaN). *)
Definition to_numeric_cell `{Runtime} (v : value) : option (Z + Q) :=
  match v with
  | VNull => None
  | VInt n => Some (inl n)
  | VNpInt n => Some (inl n)
  | VFloat q => Some (inr q)
  | VStr s => numeric_of_str s
  | VDate _ => None
  end.

Definition is_masked_int (v : value) : bool :=
  match v with
  | VNull | VNpInt _ => true
  | _ => false
  end.

Definition is_inl {A B} (x : option (A + B)) : bool :=
  match x with
  | Some (inl _) => true
  | _ => false
  end.

(** [pd.to_numeric(s, errors="coerce")] on the cells of a column.  A masked
    integer column is returned as it is; a column of integers only becomes
    an [int64] column, whose cells iterate as [int]; any other column becomes
    [float64], with NaN where no number was read. *)
Definition to_numeric `{Runtime} (vals : list value) : list value :=
  if forallb is_masked_int vals then vals
  else
    let parsed := map to_numeric_cell vals in
    if forallb is_inl parsed then
      map (fun p => match p with
                    | Some (inl n) => VInt n
                    | _ => VNull
                    end) parsed
    else
      map (fun p => match p with
                    | Some (inl n) => VFloat (inject_Z n)
                    | Some (inr q) => VFloat q
                    | None => VNull
                    end) parsed.

(** Whether a float holds an integer. *)
Definition is_integral (q : Q) : bool := Qeq_bool (inject_Z (Qfloor q)) q.

(** One cell of [.astype("Int64")]: the cast is refused with [TypeError]
    ("cannot safely cast non-equivalent float64 to int64") when a float
    does not hold an integer. *)
Definition astype_Int64_cell (v : value) : result value :=
  match v with
  | VNull => Ok VNull
  | VInt n => Ok (VNpInt n)
  | VNpInt n => Ok (VNpInt n)
  | VFloat q => if is_integral q then Ok (VNpInt (Qfloor q)) else Raise TypeError
  | VStr _ => Raise TypeError
  | VDate _ => Raise TypeError
  end.

(** [.astype("Int64")] on the cells of a numeric column. *)
Fixpoint astype_Int64 (vals : list value) : result (list value) :=
  match vals with
  | [] => Ok []
  | v :: vals' =>
      c ← astype_Int64_cell v;
      cs ← astype_Int64 vals';
      Ok (c :: cs)
  end.

(** [.astype("string")]: the text of every cell, the missing-value marker
    kept. *)
Definition astype_string `{Runtime} (vals : list value) : list value :=
  map (fun v => if isna v then VNull else VStr (str v)) vals.

End Pandas.

(* ===================================================================== *)
(** ** validator/core.py *)
(* ===================================================================== *)

Module Core.
Import Py Pandas.

(** One entry of [errors]: a dict with the keys ["column"] and ["error"],
    and the key ["row"] when the violation is tied to a row. *)
Record Violation := {
  row : option Z;
  column : string;
  error : string
}.

(** A rule of the configuration, as [rule.get] and ["regex" in rule] see it:
    [None] for a key that is absent (or null). *)
Record Rule := {
  r_column : option string;
  r_type : option string;
  r_not_null : bool;
  r_unique : bool;
  r_min : option value;
  r_max : option value;
  r_regex : option string
}.

(** The parsed configuration; [cfg_rules] is [None] when the key ["rules"]
    is absent. *)
Record Config := { cfg_rules : option (list Rule) }.

Record Summary := {
  rows_checked : nat;
  rows_failed : nat;
  validation_passed : bool
}.

Record Report := { summary : Summary; errors : list Violation }.

(** *** The objects a run works on

    [st_df] is the table of the caller, [st_df_local] and [st_errors] are
    the local variables [df_local] and [errors] of [validate_data]. *)
Record state := {
  st_df : DataFrame;
  st_df_local : DataFrame;
  st_errors : list Violation
}.

(** A computation over the state that returns or raises; what was appended
    to [errors] before an exception stays appended. *)
Definition M (A : Type) : Type := state -> result A * state.

#[export] Instance M_ret : MRet M := fun _ a st => (Ok a, st).
#[export] Instance M_bind : MBind M := fun _ _ f m st =>
  match m st with
  | (Ok a, st') => f a st'
  | (Raise e, st') => (Raise e, st')
  end.

(** Reads a local variable. *)
Definition gets {A} (f : state -> A) : M A := fun st => (Ok (f st), st).

Definition raise {A} (e : exn) : M A := fun st => (Raise e, st).

(** Runs a pure computation that may raise. *)
Definition lift {A} (r : result A) : M A := fun st => (r, st).

(** [errors.append(v)] *)
Definition append (v : Violation) : M unit := fun st =>
  (Ok tt, {| st_df := st_df st;
             st_df_local := st_df_local st;
             st_errors := st_errors st ++ [v] |}).

(** [try: body except Exception: handler] *)
Definition try_except {A} (body handler : M A) : M A := fun st =>
  match body st with
  | (Ok a, st') => (Ok a, st')
  | (Raise _, st') => handler st'
  end.

(** [for x in l: body(x)] *)
Fixpoint for_each {A} (l : list A) (body : A -> M unit) : M unit :=
  match l with
  | [] => mret tt
  | x :: l' => body x ;; for_each l' body
  end.

(** [if c: body] *)
Definition when (c : bool) (body : M unit) : M unit :=
  if c then body else mret tt.

Section WithRuntime.
Context `{Runtime}.

(** [_coerce_series_to_type(s, expected)] *)
Definition _coerce_series_to_type (s : Series) (expected : string)
  : result Series :=
  if String.eqb expected "int" then
    vals ← astype_Int64 (to_numeric (s_values s));
    Ok {| s_index := s_index s; s_values := vals |}
  else if String.eqb expected "float" then
    Ok {| s_index := s_index s; s_values := to_numeric (s_values s) |}
  else if String.eqb expected "string" then
    Ok {| s_index := s_index s; s_values := astype_string (s_values s) |}
  else if String.eqb expected "date" then
    Ok {| s_index := s_index s; s_values := to_datetime_date (s_values s) |}
  else Ok s.

(** [_regex_mismatch(val, pattern)] *)
Definition _regex_mismatch (val : value) (pattern : re_pattern) : bool :=
  if isna val then false
  else negb (re_fullmatch pattern (str val)).

(** [_maybe_cast(boundary, sample_value)] *)
Definition _maybe_cast (boundary sample_value : value) : result value :=
  if isna sample_value then Ok boundary
  else if has_year_month sample_value then to_datetime_scalar boundary
  else if is_int_or_float sample_value then float boundary
  else Ok boundary.

(** The body of the range loop for one cell. *)
Definition range_check (col : string) (min_v max_v : option value)
    (idx : Z) (val : value) : M unit :=
  if isna val then mret tt
  else
    try_except
      (match min_v with
       | Some m =>
           below ← lift (b ← _maybe_cast m val; lt val b);
           when below
             (append {| row := Some idx; column := col;
                        error := "Value " ++ str val ++ " below min "
                                   ++ str m |})
       | None => mret tt
       end;;
       match max_v with
       | Some m =>
           above ← lift (b ← _maybe_cast m val; gt val b);
           when above
             (append {| row := Some idx; column := col;
                        error := "Value " ++ str val ++ " above max "
                                   ++ str m |})
       | None => mret tt
       end)
      (append {| row := Some idx; column := col;
                 error := "Range check failed (incomparable types)" |}).

(** The body of the loop over the rules. *)
Definition check_rule (rule : Rule) : M unit :=
  match r_column rule with
  | None | Some "" =>
      append {| row := None; column := "-";
                error := "Rule missing 'column' key" |}
  | Some col =>
      df_local ← gets st_df_local;
      match getitem df_local col with
      | None =>
          append {| row := None; column := col;
                    error := "Column not found in dataset" |}
      | Some s0 =>
          (* 1) type coercion *)
          s ← match r_type rule with
              | None | Some "" => mret s0
              | Some expected_type =>
                  coerced ← lift (_coerce_series_to_type s0 expected_type);
                  let type_fail_mask :=
                    mask_and (map isna (s_values coerced))
                             (map notna (s_values s0)) in
                  for_each (select type_fail_mask (df_index df_local))
                    (fun idx =>
                       append {| row := Some idx; column := col;
                                 error := "Type mismatch: expected "
                                            ++ expected_type |});;
                  mret coerced
              end;
          (* 2) not null *)
          when (r_not_null rule)
            (for_each (select (map isna (s_values s)) (s_index s))
               (fun idx =>
                  append {| row := Some idx; column := col;
                            error := "Null value not allowed" |}));;
          (* 3) unique *)
          when (r_unique rule)
            (for_each (select (df_duplicated df_local col) (df_index df_local))
               (fun idx =>
                  append {| row := Some idx; column := col;
                            error := "Duplicate value found" |}));;
          (* 4) range *)
          when (is_not_None (r_min rule) || is_not_None (r_max rule))
            (for_each (items s)
               (fun '(idx, val) =>
                  range_check col (r_min rule) (r_max rule) idx val));;
          (* 5) regex *)
          match r_regex rule with
          | None => mret tt
          | Some p =>
              match re_compile p with
              | None => raise ReError
              | Some pattern =>
                  for_each (items s)
                    (fun '(idx, val) =>
                       when (_regex_mismatch val pattern)
                         (append {| row := Some idx; column := col;
                                    error := "Regex mismatch: " ++ str val |}))
              end
          end
      end
  end.

(** [{e["row"] for e in errors if "row" in e}] *)
Definition failed_rows (errs : list Violation) : gset Z :=
  list_to_set (omap row errs).

(** The body of [validate_data], from the loop on. *)
Definition validate_body (rules : list Rule) : M Report :=
  for_each rules check_rule;;
  errors ← gets st_errors;
  df_local ← gets st_df_local;
  mret {| summary :=
            {| rows_checked := len df_local;
               rows_failed := size (failed_rows errors);
               validation_passed := (length errors =? 0)%nat |};
          errors := errors |}.

(** The state in which the loop starts: [errors = []] and
    [df_local = df.copy()]. *)
Definition enter (df : DataFrame) : state :=
  {| st_df := df; st_df_local := copy df; st_errors := [] |}.

(** [validate_data(df, config)]: the report, or the exception that ends
    the run. *)
Definition validate_data (df : DataFrame) (config : Config) : result Report :=
  fst (validate_body (default [] (cfg_rules config)) (enter df)).

(** The caller's table once [validate_data(df, config)] has ended. *)
Definition table_after (df : DataFrame) (config : Config) : DataFrame :=
  st_df (snd (validate_body (default [] (cfg_rules config)) (enter df))).

(** *** One pass of the loop, as lists

    The violations one pass of the loop body appends, written as list
    expressions; [check_rule_runs] below proves that [check_rule] appends
    exactly these. *)

Definition add_errors (out : list Violation) (st : state) : state :=
  {| st_df := st_df st;
     st_df_local := st_df_local st;
     st_errors := st_errors st ++ out |}.

(** [runs_on d m r out]: started with the working table [d], the
    computation [m] ends as [r] and has appended [out] to [errors],
    changing nothing else. *)
Definition runs_on {A} (d : DataFrame) (m : M A) (r : result A)
    (out : list Violation) : Prop :=
  forall st, st_df_local st = d -> m st = (r, add_errors out st).

Definition type_mismatch_out (col expected_type : string) (index : list Z)
    (raw coerced : list value) : list Violation :=
  map (fun idx => {| row := Some idx; column := col;
                     error := "Type mismatch: expected " ++ expected_type |})
    (select (mask_and (map isna coerced) (map notna raw)) index).

Definition not_null_out (col : string) (s : Series) : list Violation :=
  map (fun idx => {| row := Some idx; column := col;
                     error := "Null value not allowed" |})
    (select (map isna (s_values s)) (s_index s)).

Definition unique_out (col : string) (df_local : DataFrame) : list Violation :=
  map (fun idx => {| row := Some idx; column := col;
                     error := "Duplicate value found" |})
    (select (df_duplicated df_local col) (df_index df_local)).

Definition below_min (col : string) (idx : Z) (val m : value) : Violation :=
  {| row := Some idx; column := col;
     error := "Value " ++ str val ++ " below min " ++ str m |}.

Definition above_max (col : string) (idx : Z) (val m : value) : Violation :=
  {| row := Some idx; column := col;
     error := "Value " ++ str val ++ " above max " ++ str m |}.

Definition range_failed (col : string) (idx : Z) : Violation :=
  {| row := Some idx; column := col;
     error := "Range check failed (incomparable types)" |}.

(** The outcome of the test against [min]: the violation it appends, or
    the exception of the cast or of the comparison. *)
Definition min_part (col : string) (min_v : option value) (idx : Z)
    (val : value) : result (list Violation) :=
  match min_v with
  | Some m =>
      below ← (b ← _maybe_cast m val; lt val b);
      Ok (if below : bool then [below_min col idx val m] else [])
  | None => Ok []
  end.

Definition max_part (col : string) (max_v : option value) (idx : Z)
    (val : value) : result (list Violation) :=
  match max_v with
  | Some m =>
      above ← (b ← _maybe_cast m val; gt val b);
      Ok (if above : bool then [above_max col idx val m] else [])
  | None => Ok []
  end.

Definition range_cell_out (col : string) (min_v max_v : option value)
    (idx : Z) (val : value) : list Violation :=
  if isna val then []
  else
    match min_part col min_v idx val with
    | Raise _ => [range_failed col idx]
    | Ok o1 =>
        o1 ++ match max_part col max_v idx val with
              | Raise _ => [range_failed col idx]
              | Ok o2 => o2
              end
    end.

Definition range_out (col : string) (min_v max_v : option value)
    (s : Series) : list Violation :=
  flat_map (fun '(idx, val) => range_cell_out col min_v max_v idx val)
    (items s).

Definition regex_cell_out (col : string) (pattern : re_pattern)
    (idx : Z) (val : value) : list Violation :=
  if _regex_mismatch val pattern
  then [{| row := Some idx; column := col;
           error := "Regex mismatch: " ++ str val |}]
  else [].

Definition regex_out (col : string) (pattern : re_pattern) (s : Series)
  : list Violation :=
  flat_map (fun '(idx, val) => regex_cell_out col pattern idx val) (items s).

(** The column the checks after the coercion work on, with the violations
    of the coercion. *)
Definition coerce_out (df_local : DataFrame) (rule : Rule) (col : string)
    (s0 : Series) : result (Series * list Violation) :=
  match r_type rule with
  | None | Some "" => Ok (s0, [])
  | Some expected_type =>
      coerced ← _coerce_series_to_type s0 expected_type;
      Ok (coerced,
          type_mismatch_out col expected_type (df_index df_local)
            (s_values s0) (s_values coerced))
  end.

(** The violations of the checks 2) to 4) on the column [s]. *)
Definition checks_out (df_local : DataFrame) (rule : Rule) (col : string)
    (s : Series) : list Violation :=
  (if r_not_null rule then not_null_out col s else [])
  ++ (if r_unique rule then unique_out col df_local else [])
  ++ (if is_not_None (r_min rule) || is_not_None (r_max rule)
      then range_out col (r_min rule) (r_max rule) s else []).

(** How the regex check ends, and what it appends. *)
Definition regex_part (rule : Rule) (col : string) (s : Series)
  : result unit * list Violation :=
  match r_regex rule with
  | None => (Ok tt, [])
  | Some p =>
      match re_compile p with
      | None => (Raise ReError, [])
      | Some pattern => (Ok tt, regex_out col pattern s)
      end
  end.

(** How one pass of the loop ends, and what it appends. *)
Definition rule_outcome (df_local : DataFrame) (rule : Rule)
  : result unit * list Violation :=
  match r_column rule with
  | None | Some "" =>
      (Ok tt, [{| row := None; column := "-";
                  error := "Rule missing 'column' key" |}])
  | Some col =>
      match getitem df_local col with
      | None =>
          (Ok tt, [{| row := None; column := col;
                      error := "Column not found in dataset" |}])
      | Some s0 =>
          match coerce_out df_local rule col s0 with
          | Raise e => (Raise e, [])
          | Ok (s, type_out) =>
              let '(r, re_out) := regex_part rule col s in
              (r, type_out ++ checks_out df_local rule col s ++ re_out)
          end
      end
  end.

(** How the loop over [rules] ends, and what it appends. *)
Fixpoint rules_outcome (df_local : DataFrame) (rules : list Rule)
  : result unit * list Violation :=
  match rules with
  | [] => (Ok tt, [])
  | rule :: rules' =>
      match rule_outcome df_local rule with
      | (Ok _, out) =>
          let '(r, out') := rules_outcome df_local rules' in (r, out ++ out')
      | (Raise e, out) => (Raise e, out)
      end
  end.

(** The report built from the working table and the violations. *)
Definition report_of (df_local : DataFrame) (errs : list Violation) : Report :=
  {| summary :=
       {| rows_checked := len df_local;
          rows_failed := size (failed_rows errs);
          validation_passed := (length errs =? 0)%nat |};
     errors := errs |}.

(** One pass of the loop on the table [df], from the state in which the
    loop starts: how it ends and the violations it appends. *)
Definition rule_result (df : DataFrame) (rule : Rule) : result unit :=
  fst (check_rule rule (enter df)).

Definition rule_errors (df : DataFrame) (rule : Rule) : list Violation :=
  st_errors (snd (check_rule rule (enter df))).

End WithRuntime.
End Core.

(* ===================================================================== *)
(** ** A reference regular-expression engine *)
(* ===================================================================== *)

(** The validator only asks [re] whether a pattern matches a whole text.
    This engine answers that question for the usual core of the pattern
    syntax, on ASCII text: literals, [.], escapes ([\s \d \w] and escaped
    punctuation), classes with ranges and negation, the anchors [^] and [$],
    groups, alternation and the quantifiers [* + ?].  A pattern outside this
    core is not accepted. *)
Module Regex.

Inductive item :=
| IChar (c : ascii)
| IRange (lo hi : ascii)
| ISpace
| IDigit
| IWord.

Inductive re :=
| Eps
| Chr (c : ascii)
| Any
| Class (negated : bool) (items : list item)
| Bol
| Eol
| Seq (r1 r2 : re)
| Alt (r1 r2 : re)
| Star (r : re).

Definition code (c : ascii) : N := N_of_ascii c.

Definition between (lo hi : N) (c : ascii) : bool :=
  ((lo <=? code c) && (code c <=? hi))%N.

(** [\s]: blank, the controls 9 to 13 and the separators 28 to 31. *)
Definition is_space (c : ascii) : bool :=
  (code c =? 32)%N || between 9 13 c || between 28 31 c.

Definition is_digit (c : ascii) : bool := between 48 57 c.

Definition is_word (c : ascii) : bool :=
  is_digit c || between 65 90 c || between 97 122 c || (code c =? 95)%N.

Definition item_has (i : item) (c : ascii) : bool :=
  match i with
  | IChar d => (code c =? code d)%N
  | IRange lo hi => between (code lo) (code hi) c
  | ISpace => is_space c
  | IDigit => is_digit c
  | IWord => is_word c
  end.

Definition newline : ascii := ascii_of_N 10.

(** [accepts r start s k]: some prefix of [s] matches [r] and [k] accepts
    what is left; [start] tells whether [s] begins at the start of the
    text.  An iteration of a starred pattern has to consume input. *)
Fixpoint accepts (r : re) (start : bool) (s : list ascii)
    (k : bool -> list ascii -> bool) {struct r} : bool :=
  match r with
  | Eps => k start s
  | Chr c =>
      match s with
      | d :: s' => (code c =? code d)%N && k false s'
      | [] => false
      end
  | Any =>
      match s with
      | d :: s' => negb (code d =? code newline)%N && k false s'
      | [] => false
      end
  | Class negated items =>
      match s with
      | d :: s' => xorb negated (existsb (fun i => item_has i d) items)
                   && k false s'
      | [] => false
      end
  | Bol => start && k start s
  | Eol =>
      match s with
      | [] => k start s
      | [d] => (code d =? code newline)%N && k start s
      | _ => false
      end
  | Seq r1 r2 => accepts r1 start s (fun start' s' => accepts r2 start' s' k)
  | Alt r1 r2 => accepts r1 start s k || accepts r2 start s k
  | Star r' =>
      (fix iterate (fuel : nat) (start : bool) (s : list ascii) : bool :=
         k start s
         || match fuel with
            | O => false
            | S fuel' =>
                accepts r' start s
                  (fun start' s' =>
                     (length s' <? length s)%nat && iterate fuel' start' s')
            end) (length s) start s
  end.

(** [pattern.fullmatch(text) is not None] *)
Definition fullmatch (r : re) (text : string) : bool :=
  accepts r true (list_ascii_of_string text)
    (fun _ rest => match rest with [] => true | _ => false end).

(** *** Reading a pattern *)

Definition is_special (c : ascii) : bool :=
  existsb (fun d => (code c =? code d)%N)
    (list_ascii_of_string "*+?{}()[]|").

(** The atom an escape [\c] stands for, outside a class. *)
Definition escape (c : ascii) : option re :=
  if (code c =? code "s")%N then Some (Class false [ISpace])
  else if (code c =? code "d")%N then Some (Class false [IDigit])
  else if (code c =? code "w")%N then Some (Class false [IWord])
  else if (code c =? code "S")%N then Some (Class true [ISpace])
  else if (code c =? code "D")%N then Some (Class true [IDigit])
  else if (code c =? code "W")%N then Some (Class true [IWord])
  else if is_word c then None
  else Some (Chr c).

(** The class item an escape [\c] stands for, inside a class. *)
Definition escape_item (c : ascii) : option item :=
  if (code c =? code "s")%N then Some ISpace
  else if (code c =? code "d")%N then Some IDigit
  else if (code c =? code "w")%N then Some IWord
  else if is_word c then None
  else Some (IChar c).

(** The items of a class up to its closing bracket. *)
Fixpoint parse_items (fuel : nat) (s : list ascii)
  : option (list item * list ascii) :=
  match fuel with
  | O => None
  | S fuel' =>
      match s with
      | [] => None
      | c :: rest =>
          if (code c =? code "]")%N then Some ([], rest)
          else if (code c =? code "\")%N then
            match rest with
            | e :: rest' =>
                i ← escape_item e;
                '(its, rest'') ← parse_items fuel' rest';
                Some (i :: its, rest'')
            | [] => None
            end
          else
            match rest with
            | dash :: hi :: rest' =>
                if (code dash =? code "-")%N && negb (code hi =? code "]")%N
                then
                  '(its, rest'') ← parse_items fuel' rest';
                  Some (IRange c hi :: its, rest'')
                else
                  '(its, rest'') ← parse_items fuel' rest;
                  Some (IChar c :: its, rest'')
            | _ =>
                '(its, rest'') ← parse_items fuel' rest;
                Some (IChar c :: its, rest'')
            end
      end
  end.

Definition parse_class (s : list ascii) : option (re * list ascii) :=
  match s with
  | c :: rest =>
      if (code c =? code "^")%N then
        '(its, rest') ← parse_items (length rest) rest;
        Some (Class true its, rest')
      else
        '(its, rest') ← parse_items (length s) s;
        Some (Class false its, rest')
  | [] => None
  end.

(** A quantifier after the atom [a], if there is one. *)
Definition parse_quantifier (a : re) (s : list ascii) : re * list ascii :=
  match s with
  | c :: rest =>
      if (code c =? code "*")%N then (Star a, rest)
      else if (code c =? code "+")%N then (Seq a (Star a), rest)
      else if (code c =? code "?")%N then (Alt a Eps, rest)
      else (a, s)
  | [] => (a, s)
  end.

Fixpoint parse_alt (fuel : nat) (s : list ascii) {struct fuel}
  : option (re * list ascii) :=
  match fuel with
  | O => None
  | S fuel' =>
      '(r, rest) ← parse_seq fuel' s;
      match rest with
      | c :: rest' =>
          if (code c =? code "|")%N then
            '(r2, rest'') ← parse_alt fuel' rest';
            Some (Alt r r2, rest'')
          else Some (r, rest)
      | [] => Some (r, rest)
      end
  end
with parse_seq (fuel : nat) (s : list ascii) {struct fuel}
  : option (re * list ascii) :=
  match fuel with
  | O => None
  | S fuel' =>
      match s with
      | [] => Some (Eps, s)
      | c :: rest =>
          if (code c =? code "|")%N || (code c =? code ")")%N
          then Some (Eps, s)
          else
            '(a, rest') ←
               (if (code c =? code "(")%N then
                  '(r, after) ← parse_alt fuel' rest;
                  match after with
                  | d :: after' =>
                      if (code d =? code ")")%N then Some (r, after') else None
                  | [] => None
                  end
                else if (code c =? code "[")%N then parse_class rest
                else if (code c =? code ".")%N then Some (Any, rest)
                else if (code c =? code "^")%N then Some (Bol, rest)
                else if (code c =? code "$")%N then Some (Eol, rest)
                else if (code c =? code "\")%N then
                  match rest with
                  | e :: rest' => r ← escape e; Some (r, rest')
                  | [] => None
                  end
                else if is_special c then None
                else Some (Chr c, rest));
            let '(q, rest'') := parse_quantifier a rest' in
            '(r, rest''') ← parse_seq fuel' rest'';
            Some (Seq q r, rest''')
      end
  end.

(** [re.compile(p)] on the core syntax. *)
Definition compile (p : string) : option re :=
  let s := list_ascii_of_string p in
  '(r, rest) ← parse_alt (2 * length s + 2) s;
  match rest with
  | [] => Some r
  | _ => None
  end.

End Regex.

(* ===================================================================== *)
(** ** A reference runtime *)
(* ===================================================================== *)

(** An instance of [Runtime] on which the validator runs inside Rocq.  It
    reads plain decimal literals ([-12], [3.5]) and ISO dates
    ([2022-01-31]), prints floats in positional decimal notation, and
    matches patterns with the engine above. *)
Module Reference.
Import Py.
Local Open Scope Z_scope.

Definition digit_value (c : ascii) : option Z :=
  if Regex.is_digit c then Some (Z.of_N (Regex.code c) - 48) else None.

(** The number written by a non-empty run of digits, after [acc]. *)
Fixpoint digits_from (acc : Z) (s : list ascii) : option Z :=
  match s with
  | [] => Some acc
  | c :: s' => d ← digit_value c; digits_from (10 * acc + d) s'
  end.

Definition digits (s : list ascii) : option Z :=
  match s with
  | [] => None
  | _ => digits_from 0 s
  end.

(** Splits at the first occurrence of [sep]. *)
Fixpoint split_at (sep : ascii) (s : list ascii)
  : list ascii * option (list ascii) :=
  match s with
  | [] => ([], None)
  | c :: s' =>
      if (Regex.code c =? Regex.code sep)%N then ([], Some s')
      else let '(a, b) := split_at sep s' in (c :: a, b)
  end.

(** An unsigned decimal literal: digits, or digits, a point and digits. *)
Definition unsigned_literal (s : list ascii) : option (Z + Q) :=
  match split_at "." s with
  | (whole, None) => n ← digits whole; Some (inl n)
  | (whole, Some frac) =>
      n ← digits whole;
      f ← digits frac;
      Some (inr (Qred (inject_Z n + Qmake f (Pos.of_nat (10 ^ length frac)))))
  end.

Definition negate (x : Z + Q) : Z + Q :=
  match x with
  | inl n => inl (- n)
  | inr q => inr (Qred (Qopp q))
  end.

Definition literal (s : string) : option (Z + Q) :=
  match list_ascii_of_string s with
  | c :: rest =>
      if (Regex.code c =? Regex.code "-")%N then negate <$> unsigned_literal rest
      else if (Regex.code c =? Regex.code "+")%N then unsigned_literal rest
      else unsigned_literal (c :: rest)
  | [] => None
  end.

Definition literal_as_float (s : string) : option Q :=
  x ← literal s;
  Some match x with
       | inl n => inject_Z n
       | inr q => q
       end.

(** The fractional digits of [r / d], at most [fuel] of them. *)
Fixpoint fraction_digits (fuel : nat) (r d : Z) : string :=
  match fuel with
  | O => ""
  | S fuel' =>
      if (r =? 0)%Z then ""
      else pretty (10 * r / d)%Z ++ fraction_digits fuel' (10 * r mod d)%Z d
  end.

Definition print_float (q : Q) : string :=
  let a := Z.abs (Qnum q) in
  let d := Zpos (Qden q) in
  let sign := if (Qnum q <? 0)%Z then "-" else "" in
  let frac := fraction_digits 17 (a mod d)%Z d in
  sign ++ pretty (a / d)%Z ++ "." ++ (if String.eqb frac "" then "0" else frac).

(** The civil date of a day number counted from 1970-01-01. *)
Definition date_of_days (days : Z) : date :=
  let z := days + 719468 in
  let era := z / 146097 in
  let doe := z - era * 146097 in
  let yoe := (doe - doe / 1460 + doe / 36524 - doe / 146096) / 365 in
  let doy := doe - (365 * yoe + yoe / 4 - yoe / 100) in
  let mp := (5 * doy + 2) / 153 in
  let d := doy - (153 * mp + 2) / 5 + 1 in
  let m := if mp <? 10 then mp + 3 else mp - 9 in
  {| year := yoe + era * 400 + (if m <=? 2 then 1 else 0);
     month := m; day := d |}.

Definition nanoseconds_per_day : Z := 86400 * 1000000000.

Definition is_leap (y : Z) : bool :=
  ((y mod 4 =? 0) && negb (y mod 100 =? 0)) || (y mod 400 =? 0).

Definition days_in_month (y m : Z) : Z :=
  if m =? 2 then (if is_leap y then 29 else 28)
  else if (m =? 4) || (m =? 6) || (m =? 9) || (m =? 11) then 30
  else 31.

(** An ISO date [YYYY-MM-DD]. *)
Definition iso_date (s : string) : option date :=
  match split_at "-" (list_ascii_of_string s) with
  | (ys, Some rest) =>
      match split_at "-" rest with
      | (ms, Some ds) =>
          y ← digits ys;
          m ← digits ms;
          d ← digits ds;
          if (length ys =? 4)%nat && (length ms =? 2)%nat
             && (length ds =? 2)%nat
             && (1 <=? y) && (1 <=? m) && (m <=? 12)
             && (1 <=? d) && (d <=? days_in_month y m)
          then Some {| year := y; month := m; day := d |}
          else None
      | _ => None
      end
  | _ => None
  end.

(** The date [pd.to_datetime] reads in one cell: a number counts
    nanoseconds from 1970-01-01. *)
Definition date_cell (v : value) : value :=
  match v with
  | VNull => VNull
  | VInt n => VDate (date_of_days (n / nanoseconds_per_day))
  | VNpInt n => VDate (date_of_days (n / nanoseconds_per_day))
  | VFloat q => VDate (date_of_days (Qfloor q / nanoseconds_per_day))
  | VStr s => from_option VDate VNull (iso_date s)
  | VDate d => VDate d
  end.

#[export] Instance runtime : Runtime := {|
  float_repr := print_float;
  numeric_of_str := literal;
  float_of_str := literal_as_float;
  to_datetime_date := map date_cell;
  to_datetime_date_length := fun l => length_map date_cell l;
  to_datetime_scalar := fun v => Ok (date_cell v);
  re_pattern := Regex.re;
  re_compile := Regex.compile;
  re_fullmatch := Regex.fullmatch
|}.

End Reference.

(* ===================================================================== *)
(** ** Tables and rule sets used as examples *)
(* ===================================================================== *)

Module Examples.
Import Py Pandas Core.

(** A rule on [col] with no check set. *)
Definition on_column (col : string) : Rule :=
  {| r_column := Some col; r_type := None; r_not_null := false;
     r_unique := false; r_min := None; r_max := None; r_regex := None |}.

Definition with_type (t : string) (r : Rule) : Rule :=
  {| r_column := r_column r; r_type := Some t; r_not_null := r_not_null r;
     r_unique := r_unique r; r_min := r_min r; r_max := r_max r;
     r_regex := r_regex r |}.

Definition with_unique (r : Rule) : Rule :=
  {| r_column := r_column r; r_type := r_type r; r_not_null := r_not_null r;
     r_unique := true; r_min := r_min r; r_max := r_max r;
     r_regex := r_regex r |}.

Definition with_not_null (r : Rule) : Rule :=
  {| r_column := r_column r; r_type := r_type r; r_not_null := true;
     r_unique := r_unique r; r_min := r_min r; r_max := r_max r;
     r_regex := r_regex r |}.

Definition with_range (lo hi : option value) (r : Rule) : Rule :=
  {| r_column := r_column r; r_type := r_type r; r_not_null := r_not_null r;
     r_unique := r_unique r; r_min := lo; r_max := hi;
     r_regex := r_regex r |}.

Definition with_regex (p : string) (r : Rule) : Rule :=
  {| r_column := r_column r; r_type := r_type r; r_not_null := r_not_null r;
     r_unique := r_unique r; r_min := r_min r; r_max := r_max r;
     r_regex := Some p |}.

Definition rules (l : list Rule) : Config := {| cfg_rules := Some l |}.

(** A table with the default index [0, 1, ...]. *)
Definition table (rows : nat) (cols : list (string * list value)) : DataFrame :=
  {| df_index := Z.of_nat <$> seq 0 rows; df_columns := list_to_map cols |}.

Definition email_pattern : string := "^[^@\s]+@[^@\s]+\.[^@\s]+$".

(** The table and the rules of [tests/test_validator.py]. *)
Definition users : DataFrame :=
  table 3
    [("user_id", [VInt 1; VInt 2; VInt 2]);
     ("age", [VInt 10; VNull; VInt 200]);
     ("email", [VStr "a@b.com"; VStr "bad@"; VStr "c@d.com"]);
     ("signup_date",
      [VStr "2022-01-01"; VStr "2019-01-01"; VStr "2023-05-05"])].

Definition users_rules : Config :=
  rules
    [with_unique (on_column "user_id");
     with_range (Some (VInt 0)) (Some (VInt 120))
       (with_type "int" (on_column "age"));
     with_regex email_pattern (on_column "email");
     with_range (Some (VStr "2020-01-01")) None
       (with_type "date" (on_column "signup_date"))].

Definition users_report : Report :=
  {| summary := {| rows_checked := 3; rows_failed := 2;
                   validation_passed := false |};
     errors :=
       [{| row := Some 1; column := "user_id";
           error := "Duplicate value found" |};
        {| row := Some 2; column := "user_id";
           error := "Duplicate value found" |};
        {| row := Some 2; column := "age";
           error := "Value 200 above max 120" |};
        {| row := Some 1; column := "email";
           error := "Regex mismatch: bad@" |};
        {| row := Some 1; column := "signup_date";
           error := "Value 2019-01-01 below min 2020-01-01" |}] |}.

(** A rule on a column the table does not have. *)
Definition ghost_rules : Config := rules [on_column "ghost"].

Definition ghost_report : Report :=
  {| summary := {| rows_checked := 3; rows_failed := 0;
                   validation_passed := false |};
     errors := [{| row := None; column := "ghost";
                   error := "Column not found in dataset" |}] |}.

(** An [age] column holding 3.5, as a float and as text. *)
Definition age_float : DataFrame := table 1 [("age", [VFloat (7 # 2)])].
Definition age_text : DataFrame := table 1 [("age", [VStr "3.5"])].
Definition age_int_rules : Config := rules [with_type "int" (on_column "age")].

(** The column [1, 2, 2, 3] of the uniqueness example, and a column with
    two missing values. *)
Definition codes : DataFrame :=
  table 4 [("code", [VInt 1; VInt 2; VInt 2; VInt 3])].
Definition unique_code : Rule := with_unique (on_column "code").

(** Ages at and around the boundaries 0 and 120. *)
Definition ages : DataFrame :=
  table 5 [("age", [VInt 0; VInt 120; VInt (-1); VInt 121; VNull])].
Definition age_range : Rule :=
  with_range (Some (VInt 0)) (Some (VInt 120)) (on_column "age").
(** A range with min above max. *)
Definition age_crossed : Rule :=
  with_range (Some (VInt 120)) (Some (VInt 0)) (on_column "age").

(** Two rules on the column [age] of [users]: the first coerces it to
    text, the second checks a numeric range. *)
Definition age_as_text : Rule := with_type "string" (on_column "age").

Definition age_twice_report : Report :=
  {| summary := {| rows_checked := 3; rows_failed := 1;
                   validation_passed := false |};
     errors := [{| row := Some 2; column := "age";
                   error := "Value 200 above max 120" |}] |}.

(** A column with text that is no number, a number and a missing value,
    with what the coercion to [int] makes of it. *)
Definition mixed : DataFrame :=
  table 3 [("n", [VStr "abc"; VInt 3; VNull])].
Definition mixed_int : Rule := with_type "int" (on_column "n").
Definition mixed_raw : Series :=
  {| s_index := [0; 1; 2]; s_values := [VStr "abc"; VInt 3; VNull] |}.
Definition mixed_coerced : Series :=
  {| s_index := [0; 1; 2]; s_values := [VNull; VNpInt 3; VNull] |}.

(** One value between a max of 0 and a min of 120. *)
Definition fifty : DataFrame := table 1 [("age", [VInt 50])].

(** A float column checked against a min that is no number. *)
Definition weights : DataFrame := table 1 [("kg", [VFloat 200])].
Definition weight_range : Rule :=
  with_range (Some (VStr "abc")) (Some (VInt 120)) (on_column "kg").

Definition emails : DataFrame :=
  table 3 [("email", [VStr "a@b.com"; VStr "bad@"; VNull])].
Definition email_rule : Rule := with_regex email_pattern (on_column "email").

End Examples.

(* ===================================================================== *)
(** ** The loop appends what the list expressions say *)
(* ===================================================================== *)

Module Runs.
Import Py Pandas Core.

Lemma add_errors_nil st : add_errors [] st = st.
Proof. destruct st; unfold add_errors; simpl. by rewrite app_nil_r. Qed.

Lemma add_errors_app o1 o2 st :
  add_errors o2 (add_errors o1 st) = add_errors (o1 ++ o2) st.
Proof. unfold add_errors; simpl. by rewrite app_assoc. Qed.

Lemma copy_eq df : copy df = df.
Proof. by destruct df. Qed.

Lemma bind_run {A B} (m : M A) (f : A -> M B) st :
  (m ≫= f) st = match m st with
                | (Ok a, st') => f a st'
                | (Raise e, st') => (Raise e, st')
                end.
Proof. reflexivity. Qed.

Lemma runs_ret {A} d (a : A) : runs_on d (mret a) (Ok a) [].
Proof. intros st _. by rewrite add_errors_nil. Qed.

Lemma runs_lift {A} d (r : result A) : runs_on d (lift r) r [].
Proof. intros st _. by rewrite add_errors_nil. Qed.

Lemma runs_raise {A} d e : runs_on d (@raise A e) (Raise e) [].
Proof. intros st _. by rewrite add_errors_nil. Qed.

Lemma runs_append d v : runs_on d (append v) (Ok tt) [v].
Proof. intros st _. reflexivity. Qed.

Lemma runs_df_local d : runs_on d (gets st_df_local) (Ok d) [].
Proof. intros st <-. unfold gets. by rewrite add_errors_nil. Qed.

Lemma runs_bind {A B} d (m : M A) (f : A -> M B) a o1 r o2 :
  runs_on d m (Ok a) o1 -> runs_on d (f a) r o2 ->
  runs_on d (m ≫= f) r (o1 ++ o2).
Proof.
  intros Hm Hf st Hd. rewrite bind_run, (Hm st Hd).
  rewrite (Hf (add_errors o1 st)) by done. by rewrite add_errors_app.
Qed.

Lemma runs_bind_raise {A B} d (m : M A) (f : A -> M B) e o :
  runs_on d m (Raise e) o -> runs_on d (m ≫= f) (Raise e) o.
Proof. intros Hm st Hd. by rewrite bind_run, (Hm st Hd). Qed.

Lemma runs_when d (c : bool) body out :
  runs_on d body (Ok tt) out ->
  runs_on d (when c body) (Ok tt) (if c then out else []).
Proof. destruct c; [done | intros _; apply runs_ret]. Qed.

Lemma runs_for_each {A} d (l : list A) body (g : A -> list Violation) :
  (forall x, runs_on d (body x) (Ok tt) (g x)) ->
  runs_on d (for_each l body) (Ok tt) (flat_map g l).
Proof.
  intros Hbody. induction l as [|x l IH]; simpl.
  - apply runs_ret.
  - eapply runs_bind; [apply Hbody | apply IH].
Qed.

Lemma runs_for_each_append {A} d (l : list A) (f : A -> Violation) :
  runs_on d (for_each l (fun x => append (f x))) (Ok tt) (map f l).
Proof.
  induction l as [|x l IH]; simpl.
  - apply runs_ret.
  - apply (runs_bind d _ _ tt [f x]); [apply runs_append | apply IH].
Qed.

Lemma runs_try_ok {A} d (body handler : M A) a out :
  runs_on d body (Ok a) out -> runs_on d (try_except body handler) (Ok a) out.
Proof. intros Hb st Hd. unfold try_except. by rewrite (Hb st Hd). Qed.

Lemma runs_try_raise {A} d (body handler : M A) e o1 r o2 :
  runs_on d body (Raise e) o1 -> runs_on d handler r o2 ->
  runs_on d (try_except body handler) r (o1 ++ o2).
Proof.
  intros Hb Hh st Hd. unfold try_except. rewrite (Hb st Hd).
  rewrite (Hh (add_errors o1 st)) by done. by rewrite add_errors_app.
Qed.

Lemma runs_result {A} d (m : M A) r out r' out' :
  runs_on d m r out -> r = r' -> out = out' -> runs_on d m r' out'.
Proof. by intros ? <- <-. Qed.

Section WithRuntime.
Context `{Runtime}.

(** The test against one boundary, as the loop body runs it. *)
Lemma runs_boundary d (test : result bool) (v : Violation) :
  runs_on d (below ← lift test; when below (append v))
    (b ← test; Ok tt)
    (match test with Ok true => [v] | _ => [] end).
Proof.
  destruct test as [[|]|e]; simpl.
  - apply (runs_bind d _ _ true [] (Ok tt) [v]); [apply runs_lift | apply runs_append].
  - apply (runs_bind d _ _ false [] (Ok tt) []); [apply runs_lift | apply runs_ret].
  - apply runs_bind_raise, runs_lift.
Qed.

Lemma range_check_runs d col min_v max_v idx val :
  runs_on d (range_check col min_v max_v idx val) (Ok tt)
    (range_cell_out col min_v max_v idx val).
Proof.
  unfold range_check, range_cell_out, min_part, max_part.
  destruct (isna val); [apply runs_ret|].
  set (failed := append _).
  assert (Hfailed : runs_on d failed (Ok tt) [range_failed col idx])
    by apply runs_append.
  destruct min_v as [m|], max_v as [m'|].
  - pose proof (runs_boundary d (b ← _maybe_cast m val; lt val b)
                  (below_min col idx val m)) as Hmin.
    pose proof (runs_boundary d (b ← _maybe_cast m' val; gt val b)
                  (above_max col idx val m')) as Hmax.
    destruct (b ← _maybe_cast m val; lt val b) as [below|e]; simpl in *.
    + destruct (b ← _maybe_cast m' val; gt val b) as [above|e]; simpl in *.
      * apply runs_try_ok.
        eapply runs_result; [eapply runs_bind; [apply Hmin | apply Hmax] | done |].
        by destruct below, above.
      * eapply runs_result;
          [eapply runs_try_raise;
             [eapply runs_bind; [apply Hmin | apply Hmax] | apply Hfailed]
          | done |].
        destruct below; simpl; done.
    + eapply runs_result;
        [eapply runs_try_raise; [apply runs_bind_raise, Hmin | apply Hfailed]
        | done | done].
  - pose proof (runs_boundary d (b ← _maybe_cast m val; lt val b)
                  (below_min col idx val m)) as Hmin.
    destruct (b ← _maybe_cast m val; lt val b) as [below|e]; simpl in *.
    + apply runs_try_ok.
      eapply runs_result; [eapply runs_bind; [apply Hmin | apply runs_ret] | done |].
      by destruct below.
    + eapply runs_result;
        [eapply runs_try_raise; [apply runs_bind_raise, Hmin | apply Hfailed]
        | done | done].
  - pose proof (runs_boundary d (b ← _maybe_cast m' val; gt val b)
                  (above_max col idx val m')) as Hmax.
    destruct (b ← _maybe_cast m' val; gt val b) as [above|e]; simpl in *.
    + apply runs_try_ok.
      eapply runs_result; [eapply (runs_bind d _ _ tt []); [apply runs_ret | apply Hmax] | done |].
      by destruct above.
    + eapply runs_result;
        [eapply runs_try_raise;
           [eapply (runs_bind d _ _ tt []); [apply runs_ret | apply Hmax]
           | apply Hfailed]
        | done | done].
  - apply runs_try_ok.
    apply (runs_bind d _ _ tt [] (Ok tt) []); apply runs_ret.
Qed.

Lemma coercion_runs d rule col s0 :
  runs_on d
    (match r_type rule with
     | None | Some "" => mret s0
     | Some expected_type =>
         coerced ← lift (_coerce_series_to_type s0 expected_type);
         let type_fail_mask :=
           mask_and (map isna (s_values coerced)) (map notna (s_values s0)) in
         for_each (select type_fail_mask (df_index d))
           (fun idx =>
              append {| row := Some idx; column := col;
                        error := "Type mismatch: expected " ++ expected_type |});;
         mret coerced
     end)
    (fst <$> coerce_out d rule col s0)
    (match coerce_out d rule col s0 with Ok (_, out) => out | Raise _ => [] end).
Proof.
  unfold coerce_out.
  destruct (r_type rule) as [[|c t]|]; try apply runs_ret.
  destruct (_coerce_series_to_type s0 (String c t)) as [coerced|e]; simpl.
  - eapply runs_result;
      [eapply (runs_bind d _ _ coerced []);
         [apply runs_lift
         | eapply (runs_bind d _ _ tt);
             [apply runs_for_each_append | apply runs_ret]]
      | done |].
    unfold type_mismatch_out. by rewrite app_nil_r.
  - apply runs_bind_raise, runs_lift.
Qed.

Lemma regex_runs d rule col s :
  runs_on d
    (match r_regex rule with
     | None => mret tt
     | Some p =>
         match re_compile p with
         | None => raise ReError
         | Some pattern =>
             for_each (items s)
               (fun '(idx, val) =>
                  when (_regex_mismatch val pattern)
                    (append {| row := Some idx; column := col;
                               error := "Regex mismatch: " ++ str val |}))
         end
     end)
    (fst (regex_part rule col s)) (snd (regex_part rule col s)).
Proof.
  unfold regex_part.
  destruct (r_regex rule) as [p|]; [|apply runs_ret].
  destruct (re_compile p) as [pattern|]; [|apply runs_raise].
  apply (runs_for_each d _ _
           (fun '(idx, val) => regex_cell_out col pattern idx val)).
  intros [idx val]. unfold regex_cell_out.
  eapply runs_result; [apply runs_when, runs_append | done | done].
Qed.

Theorem check_rule_runs d rule :
  runs_on d (check_rule rule)
    (fst (rule_outcome d rule)) (snd (rule_outcome d rule)).
Proof.
  unfold check_rule, rule_outcome.
  destruct (r_column rule) as [[|c col']|]; try apply runs_append.
  set (col := String c col').
  apply (runs_bind d _ _ d [] _ _ (runs_df_local d)).
  destruct (getitem d col) as [s0|]; [|apply runs_append].
  pose proof (coercion_runs d rule col s0) as Hco.
  destruct (coerce_out d rule col s0) as [[s type_out]|e]; simpl in Hco.
  - pose proof (regex_runs d rule col s) as Hre.
    destruct (regex_part rule col s) as [r re_out]; simpl in *.
    eapply runs_bind; [apply Hco|].
    eapply runs_result;
      [eapply runs_bind; [apply runs_when, runs_for_each_append|];
       eapply runs_bind; [apply runs_when, runs_for_each_append|];
       eapply runs_bind;
         [apply runs_when,
            (runs_for_each d _ _
               (fun '(idx, val) =>
                  range_cell_out col (r_min rule) (r_max rule) idx val));
          intros [idx val]; apply range_check_runs|];
       apply Hre
      | done |].
    unfold checks_out, not_null_out, unique_out, range_out.
    by rewrite <- !app_assoc.
  - by apply runs_bind_raise.
Qed.

Lemma loop_runs d rules :
  runs_on d (for_each rules check_rule)
    (fst (rules_outcome d rules)) (snd (rules_outcome d rules)).
Proof.
  induction rules as [|rule rules IH]; simpl; [apply runs_ret|].
  pose proof (check_rule_runs d rule) as Hrule.
  destruct (rule_outcome d rule) as [[[]|e] out]; simpl in *.
  - destruct (rules_outcome d rules) as [r out']; simpl in *.
    by eapply runs_bind.
  - by apply runs_bind_raise.
Qed.

Lemma validate_body_runs d rules st :
  st_df_local st = d ->
  validate_body rules st =
    (match rules_outcome d rules with
     | (Ok _, out) => Ok (report_of d (st_errors st ++ out))
     | (Raise e, _) => Raise e
     end,
     add_errors (snd (rules_outcome d rules)) st).
Proof.
  intros Hd. unfold validate_body. rewrite bind_run, (loop_runs d rules st Hd).
  destruct (rules_outcome d rules) as [[[]|e] out]; simpl; [|done].
  by rewrite <- Hd.
Qed.

(** [validate_data] in terms of the list expressions. *)
Theorem validate_data_eq df config :
  validate_data df config =
    match rules_outcome df (default [] (cfg_rules config)) with
    | (Ok _, out) => Ok (report_of df out)
    | (Raise e, _) => Raise e
    end.
Proof.
  unfold validate_data.
  rewrite (validate_body_runs df) by apply copy_eq. simpl.
  by destruct (rules_outcome df _) as [[[]|e] out].
Qed.

Lemma table_after_eq df config : table_after df config = df.
Proof.
  unfold table_after. by rewrite (validate_body_runs df) by apply copy_eq.
Qed.

Lemma rule_result_eq df rule : rule_result df rule = fst (rule_outcome df rule).
Proof.
  unfold rule_result. by rewrite (check_rule_runs df rule) by apply copy_eq.
Qed.

Lemma rule_errors_eq df rule : rule_errors df rule = snd (rule_outcome df rule).
Proof.
  unfold rule_errors. by rewrite (check_rule_runs df rule) by apply copy_eq.
Qed.

(** The loop ends without exception exactly when every pass does, and
    then it has appended the violations of the passes, in order. *)
Lemma rules_outcome_ok d rules out :
  rules_outcome d rules = (Ok tt, out) <->
  Forall (fun rule => fst (rule_outcome d rule) = Ok tt) rules
  /\ out = flat_map (fun rule => snd (rule_outcome d rule)) rules.
Proof.
  revert out. induction rules as [|rule rules IH]; intros out; simpl.
  - split; [intros [= <-]; by split | by intros [_ ->]].
  - rewrite Forall_cons.
    destruct (rule_outcome d rule) as [[[]|e] o]; simpl.
    + destruct (rules_outcome d rules) as [r o'] eqn:E. split.
      * intros [= -> <-]. destruct (proj1 (IH o') eq_refl) as [Hall ->].
        done.
      * intros [[_ Hall] ->].
        pose proof (proj2 (IH _) (conj Hall eq_refl)) as Heq.
        by simplify_eq.
    + split; [done | by intros [[? _] _]].
Qed.

(** A run returns a report exactly when every pass of the loop ends
    without exception; the violations of the report are then those of the
    passes, each as appended on the caller's table, in the order of the
    rules. *)
Theorem validate_data_ok df config rep :
  validate_data df config = Ok rep <->
  Forall (fun rule => rule_result df rule = Ok tt)
    (default [] (cfg_rules config))
  /\ rep = report_of df (flat_map (rule_errors df)
                           (default [] (cfg_rules config))).
Proof.
  rewrite validate_data_eq.
  set (rules := default [] (cfg_rules config)).
  assert (Hall : Forall (fun rule => rule_result df rule = Ok tt) rules
                 <-> Forall (fun rule => fst (rule_outcome df rule) = Ok tt) rules).
  { apply Forall_proper; [|done]. intros rule. by rewrite rule_result_eq. }
  assert (Hout : flat_map (rule_errors df) rules
                 = flat_map (fun rule => snd (rule_outcome df rule)) rules).
  { apply flat_map_ext. intros rule. apply rule_errors_eq. }
  rewrite Hall, Hout.
  destruct (rules_outcome df rules) as [[[]|e] out] eqn:E.
  - apply rules_outcome_ok in E as [? ->]. split; [by intros [= <-] | by intros [_ ->]].
  - split; [done|]. intros [Hok _].
    pose proof (proj2 (rules_outcome_ok df rules _) (conj Hok eq_refl)) as E'.
    congruence.
Qed.

End WithRuntime.

End Runs.

(* ===================================================================== *)
(** ** Lists, masks and sets *)
(* ===================================================================== *)

Module ListFacts.
Import Py Pandas Core.

Lemma elem_of_select {A} (mask : list bool) (l : list A) (x : A) :
  x ∈ select mask l <-> exists p, mask !! p = Some true /\ l !! p = Some x.
Proof.
  revert l. induction mask as [|b mask IH]; intros [|y l]; simpl.
  - split; [by intros ?%elem_of_nil | by intros (? & ? & ?)].
  - split; [by intros ?%elem_of_nil | by intros (? & ? & ?)].
  - split; [by intros ?%elem_of_nil | by intros (? & ? & ?)].
  - destruct b.
    + rewrite elem_of_cons, IH. split.
      * intros [->|(p & ? & ?)]; [by exists 0%nat | by exists (S p)].
      * intros ([|p] & ? & ?); simplify_eq/=; [by left | right; eauto].
    + rewrite IH. split.
      * intros (p & ? & ?). by exists (S p).
      * intros ([|p] & ? & ?); simplify_eq/=. eauto.
Qed.

Lemma list_to_set_remove_dups (l : list Z) :
  list_to_set (remove_dups l) =@{gset Z} list_to_set l.
Proof.
  apply set_eq. intros x.
  by rewrite !elem_of_list_to_set, elem_of_remove_dups.
Qed.

(** The size of the set of the elements of a list is the number of its
    distinct elements. *)
Lemma size_list_to_set_distinct (l : list Z) :
  size (list_to_set l : gset Z) = length (remove_dups l).
Proof.
  rewrite <- list_to_set_remove_dups.
  apply size_list_to_set, NoDup_remove_dups.
Qed.

Lemma length_remove_dups_le (l : list Z) :
  (length (remove_dups l) <= length l)%nat.
Proof.
  induction l as [|x l IH]; simpl; [done|].
  destruct (decide_rel elem_of x l); simpl; lia.
Qed.

Lemma size_list_to_set_le (l k : list Z) :
  l ⊆ k -> (size (list_to_set l : gset Z) <= length k)%nat.
Proof.
  intros Hlk.
  transitivity (size (list_to_set k : gset Z)).
  - apply subseteq_size. intros x. rewrite !elem_of_list_to_set. apply Hlk.
  - rewrite size_list_to_set_distinct. apply length_remove_dups_le.
Qed.

Lemma string_app_inv_head (s a b : string) :
  (s ++ a)%string = (s ++ b)%string -> a = b.
Proof. induction s as [|c s IH]; simpl; [done|]. intros [= ?]. auto. Qed.

Lemma string_ltb_irrefl (s : string) : String.ltb s s = false.
Proof.
  unfold String.ltb. pose proof (String.compare_antisym s s) as Hanti.
  destruct (String.compare s s); simpl in *; done.
Qed.

Lemma date_ltb_irrefl a b :
  ((year a =? year b) && (month a =? month b) && (day a =? day b))%Z = true ->
  date_ltb a b = false /\ date_ltb b a = false.
Proof.
  unfold date_ltb. intros Heq.
  apply andb_true_iff in Heq as [[Hy Hm]%andb_true_iff Hd].
  apply Z.eqb_eq in Hy, Hm, Hd. rewrite Hy, Hm, Hd.
  by rewrite !Z.ltb_irrefl, !Z.eqb_refl.
Qed.

Lemma Qltb_eq x y : Qeq_bool x y = true -> Qltb x y = false /\ Qltb y x = false.
Proof.
  intros Heq%Qeq_bool_iff. unfold Qltb.
  assert (Hxy : Qcompare x y = Eq) by by apply Qeq_alt.
  assert (Hyx : Qcompare y x = Eq) by by apply Qeq_alt.
  by rewrite Hxy, Hyx.
Qed.

(** Equal values are neither below nor above one another. *)
Lemma eqb_not_lt a b :
  eqb a b = true -> lt a b = Ok false /\ gt a b = Ok false.
Proof.
  unfold gt.
  destruct a as [| n | n | q | s | d], b as [| n' | n' | q' | s' | d'];
    simpl; try done;
    try (by intros [-> ->]%Qltb_eq);
    try (intros ->%String.eqb_eq; by rewrite string_ltb_irrefl);
    try (by intros [-> ->]%date_ltb_irrefl).
Qed.

Lemma eqb_refl v : eqb v v = true.
Proof.
  destruct v as [| n | n | q | s | d]; simpl;
    rewrite ?Qeq_bool_refl, ?String.eqb_refl, ?Z.eqb_refl; done.
Qed.

Section Occurrences.
Context {A : Type} (P : A -> Prop) `{!forall x, Decision (P x)}.

Lemma filter_nonempty (l : list A) :
  (1 <= length (filter P l))%nat <-> exists q w, l !! q = Some w /\ P w.
Proof.
  induction l as [|y l IH].
  - simpl. split; [lia | by intros (? & ? & ? & _)].
  - rewrite filter_cons. destruct (decide (P y)) as [Hy|Hy]; simpl.
    + split; [intros _; by exists 0%nat, y | lia].
    + rewrite IH. split.
      * intros (q & w & ? & ?). by exists (S q), w.
      * intros ([|q] & w & ? & ?); simplify_eq/=; [done | eauto].
Qed.

(** An element satisfying [P] is one of at least two such elements
    exactly when another position holds one. *)
Lemma filter_two (l : list A) (p : nat) (x : A) :
  l !! p = Some x -> P x ->
  ((2 <= length (filter P l))%nat
   <-> exists q w, q <> p /\ l !! q = Some w /\ P w).
Proof.
  revert p. induction l as [|y l IH]; intros p Hp Hx; [done|].
  rewrite filter_cons. destruct p as [|p]; simplify_eq/=.
  - rewrite decide_True by done. simpl.
    transitivity (1 <= length (filter P l))%nat; [lia|].
    rewrite filter_nonempty. split.
    + intros (q & w & ? & ?). by exists (S q), w.
    + intros ([|q] & w & ? & ? & ?); simplify_eq/=; eauto.
  - destruct (decide (P y)) as [Hy|Hy]; simpl.
    + split.
      * intros _. by exists 0%nat, y.
      * intros _. assert (1 <= length (filter P l))%nat; [|lia].
        apply filter_nonempty. eauto.
    + rewrite (IH p Hp Hx). split.
      * intros (q & w & ? & ? & ?). exists (S q), w. split; [lia | done].
      * intros ([|q] & w & ? & ? & ?); simplify_eq/=; try done.
        exists q, w. split; [lia | done].
Qed.

End Occurrences.

Lemma lookup_duplicated vals p :
  duplicated vals !! p = Some true <->
  exists v q w,
    vals !! p = Some v /\ q <> p /\ vals !! q = Some w /\ eqb v w = true.
Proof.
  unfold duplicated.
  assert (Hmap : forall f : value -> bool, map f vals !! p = f <$> vals !! p).
  { intros f. revert p. induction vals; intros [|?]; simpl; auto. }
  rewrite Hmap. destruct (vals !! p) as [v|] eqn:Hp; simpl.
  - pose proof (filter_two (fun w => eqb v w = true) vals p v Hp
                  (eqb_refl v)) as Htwo.
    unfold occurrences.
    destruct (length (filter (fun w => eqb v w = true) vals)) as [|[|n]].
    + split; [done|]. intros (v' & q & w & [= <-] & ?).
      assert (2 <= 0)%nat by (apply Htwo; eauto). lia.
    + split; [done|]. intros (v' & q & w & [= <-] & ?).
      assert (2 <= 1)%nat by (apply Htwo; eauto). lia.
    + split; [intros _ | done].
      destruct (proj1 Htwo) as (q & w & ?); [lia|]. by exists v, q, w.
  - split; [done | by intros (? & ? & ? & ? & _)].
Qed.

End ListFacts.

(* ===================================================================== *)
(** ** What each check appends *)
(* ===================================================================== *)

Module Checks.
Import Py Pandas Core Runs ListFacts.

Lemma in_lookup {A} (l : list A) (x : A) :
  In x l <-> exists p, l !! p = Some x.
Proof. by rewrite <- list_elem_of_In, list_elem_of_lookup. Qed.

Lemma in_select {A} (mask : list bool) (l : list A) (x : A) :
  In x (select mask l) <-> exists p, mask !! p = Some true /\ l !! p = Some x.
Proof. rewrite <- list_elem_of_In. apply elem_of_select. Qed.

Lemma in_flat_map_lookup {A B} (f : A -> list B) (l : list A) (y : B) :
  In y (flat_map f l) <-> exists p x, l !! p = Some x /\ In y (f x).
Proof.
  rewrite in_flat_map. split.
  - intros (x & (p & Hp)%in_lookup & Hy). eauto.
  - intros (p & x & Hp & Hy). exists x. split; [|done].
    apply in_lookup. eauto.
Qed.

Lemma lookup_map {A B} (f : A -> B) (l : list A) (p : nat) :
  map f l !! p = f <$> l !! p.
Proof.
  revert p. induction l as [|x l IH]; intros [|p]; simpl; auto.
Qed.

Section WithRuntime.
Context `{Runtime}.

Lemma in_type_mismatch_out col t index raw coerced v :
  In v (type_mismatch_out col t index raw coerced) <->
  exists i p x c,
    v = {| row := Some i; column := col;
           error := "Type mismatch: expected " ++ t |}
    /\ index !! p = Some i /\ raw !! p = Some x /\ coerced !! p = Some c
    /\ isna x = false /\ isna c = true.
Proof.
  unfold type_mismatch_out, mask_and. rewrite in_map_iff. split.
  - intros (i & <- & (p & Hm & Hi)%in_select).
    apply lookup_zip_with_Some in Hm as (a & b & Hab & Ha & Hb).
    rewrite lookup_map in Ha, Hb.
    destruct (coerced !! p) as [c|] eqn:Hc; [|done].
    destruct (raw !! p) as [x|] eqn:Hx; [|done].
    simplify_eq/=. exists i, p, x, c.
    unfold notna in Hab. destruct (isna c), (isna x); done.
  - intros (i & p & x & c & -> & Hi & Hx & Hc & Hnx & Hnc).
    exists i. split; [done|]. apply in_select. exists p. split; [|done].
    apply lookup_zip_with_Some. exists (isna c), (notna x).
    rewrite !lookup_map, Hx, Hc. simpl. unfold notna. by rewrite Hnx, Hnc.
Qed.

Lemma in_not_null_out col s v :
  In v (not_null_out col s) <->
  exists i p c,
    v = {| row := Some i; column := col; error := "Null value not allowed" |}
    /\ s_index s !! p = Some i /\ s_values s !! p = Some c /\ isna c = true.
Proof.
  unfold not_null_out. rewrite in_map_iff. split.
  - intros (i & <- & (p & Hm & Hi)%in_select).
    rewrite lookup_map in Hm.
    destruct (s_values s !! p) as [c|] eqn:Hc; [|done].
    simplify_eq/=. by exists i, p, c.
  - intros (i & p & c & -> & Hi & Hc & Hnc).
    exists i. split; [done|]. apply in_select. exists p. split; [|done].
    by rewrite lookup_map, Hc; simpl; rewrite Hnc.
Qed.

Lemma in_unique_out col d v :
  In v (unique_out col d) <->
  exists i p,
    v = {| row := Some i; column := col; error := "Duplicate value found" |}
    /\ df_index d !! p = Some i /\ df_duplicated d col !! p = Some true.
Proof.
  unfold unique_out. rewrite in_map_iff. split.
  - intros (i & <- & (p & Hm & Hi)%in_select). by exists i, p.
  - intros (i & p & -> & Hi & Hm).
    exists i. split; [done|]. apply in_select. eauto.
Qed.

Lemma in_range_out col lo hi s v :
  In v (range_out col lo hi s) <->
  exists p idx val,
    s_index s !! p = Some idx /\ s_values s !! p = Some val
    /\ In v (range_cell_out col lo hi idx val).
Proof.
  unfold range_out, items. rewrite in_flat_map_lookup. split.
  - intros (p & [idx val] & [??]%lookup_zip_Some & Hv). by exists p, idx, val.
  - intros (p & idx & val & ? & ? & Hv). exists p, (idx, val).
    by rewrite lookup_zip_Some.
Qed.

Lemma in_regex_out col pattern s v :
  In v (regex_out col pattern s) <->
  exists p idx val,
    s_index s !! p = Some idx /\ s_values s !! p = Some val
    /\ isna val = false /\ re_fullmatch pattern (str val) = false
    /\ v = {| row := Some idx; column := col;
              error := "Regex mismatch: " ++ str val |}.
Proof.
  unfold regex_out, items. rewrite in_flat_map_lookup. split.
  - intros (p & [idx val] & [??]%lookup_zip_Some & Hv).
    unfold regex_cell_out, _regex_mismatch in Hv.
    destruct (isna val) eqn:Hna; [done|].
    destruct (re_fullmatch pattern (str val)) eqn:Hm; [done|].
    destruct Hv as [<-|[]]. by exists p, idx, val.
  - intros (p & idx & val & ? & ? & Hna & Hm & ->). exists p, (idx, val).
    rewrite lookup_zip_Some. split; [done|].
    unfold regex_cell_out, _regex_mismatch. rewrite Hna, Hm. by left.
Qed.

(** The violations of the range loop for one cell, case by case. *)
Lemma in_range_cell_out col lo hi idx val v :
  In v (range_cell_out col lo hi idx val) ->
  isna val = false
  /\ ((exists m, lo = Some m /\ v = below_min col idx val m)
      \/ (exists m, hi = Some m /\ v = above_max col idx val m)
      \/ v = range_failed col idx).
Proof.
  unfold range_cell_out, min_part, max_part.
  destruct (isna val); [done|]. intros Hv. split; [done|].
  destruct lo as [m|], hi as [m'|]; simpl in Hv;
    repeat match type of Hv with
      | context [_maybe_cast ?a ?b ≫= ?f] =>
          destruct (_maybe_cast a b ≫= f) as [[|]|?]; simpl in Hv
      end;
    repeat (destruct Hv as [<-|Hv] || destruct Hv); eauto 6.
Qed.

Lemma to_numeric_length vals : length (to_numeric vals) = length vals.
Proof. unfold to_numeric. repeat case_match; by rewrite ?length_map. Qed.

Lemma astype_Int64_length vals cs :
  astype_Int64 vals = Ok cs -> length cs = length vals.
Proof.
  revert cs. induction vals as [|v vals IH]; intros cs; simpl.
  - by intros [= <-].
  - destruct (astype_Int64_cell v); simpl; [|done].
    destruct (astype_Int64 vals) as [cs'|]; simpl; [|done].
    intros [= <-]. simpl. by rewrite (IH cs').
Qed.

(** The coercion keeps one cell per row. *)
Lemma coerce_series_length s t s' :
  _coerce_series_to_type s t = Ok s' ->
  length (s_values s') = length (s_values s).
Proof.
  unfold _coerce_series_to_type. repeat case_match.
  - destruct (astype_Int64 _) as [cs|] eqn:Hcs; simpl; [|done].
    intros [= <-]. simpl.
    by rewrite (astype_Int64_length _ _ Hcs), to_numeric_length.
  - intros [= <-]. apply to_numeric_length.
  - intros [= <-]. apply length_map.
  - intros [= <-]. apply to_datetime_date_length.
  - by intros [= <-].
Qed.

Lemma getitem_Some d col s0 :
  getitem d col = Some s0 <->
  exists vs, df_columns d !! col = Some vs
             /\ s0 = {| s_index := df_index d; s_values := vs |}.
Proof.
  unfold getitem. destruct (df_columns d !! col) as [vs|]; simpl.
  - split; [intros [= <-]; eauto | by intros (? & [= <-] & ->)].
  - split; [done | by intros (? & ? & ?)].
Qed.

Lemma getitem_index d col s0 : getitem d col = Some s0 -> s_index s0 = df_index d.
Proof. by intros (vs & _ & ->)%getitem_Some. Qed.

Lemma coerce_series_index s t s' :
  _coerce_series_to_type s t = Ok s' -> s_index s' = s_index s.
Proof.
  unfold _coerce_series_to_type.
  repeat case_match; try by intros [= <-].
  destruct (astype_Int64 _); simpl; [by intros [= <-] | done].
Qed.

Lemma coerce_out_index d rule col s0 s tout :
  coerce_out d rule col s0 = Ok (s, tout) -> s_index s = s_index s0.
Proof.
  unfold coerce_out. destruct (r_type rule) as [[|c t]|]; try by intros [= <- _].
  destruct (_coerce_series_to_type _ _) as [s'|] eqn:E; simpl; [|done].
  intros [= <- _]. by eapply coerce_series_index.
Qed.

(** On a well-formed table the coerced column is aligned with the index,
    so the masks cover every row. *)
Lemma coerced_column_aligned df col s0 t s :
  wf df -> getitem df col = Some s0 ->
  _coerce_series_to_type s0 t = Ok s ->
  length (s_values s) = len df /\ s_index s = df_index df.
Proof.
  intros Hwf (vs & Hvs & ->)%getitem_Some Hco. split.
  - rewrite (coerce_series_length _ _ _ Hco). simpl. by eapply Hwf.
  - by rewrite (coerce_series_index _ _ _ Hco).
Qed.

(** A rule whose column is in the table and whose coercion succeeds. *)
Lemma rule_outcome_present d rule col s0 s tout :
  r_column rule = Some col -> col <> "" ->
  getitem d col = Some s0 ->
  coerce_out d rule col s0 = Ok (s, tout) ->
  rule_outcome d rule =
    (fst (regex_part rule col s),
     tout ++ checks_out d rule col s ++ snd (regex_part rule col s)).
Proof.
  intros Hcol Hne Hget Hco. unfold rule_outcome. rewrite Hcol.
  destruct col as [|c col]; [done|]. rewrite Hget, Hco.
  by destruct (regex_part _ _ _).
Qed.

(** Every violation with a row carries a label of the index. *)
Lemma rows_of_rule_outcome d rule v i :
  In v (snd (rule_outcome d rule)) -> row v = Some i -> In i (df_index d).
Proof.
  unfold rule_outcome.
  destruct (r_column rule) as [[|c col']|]; simpl;
    try by intros [<-|[]].
  set (col := String c col').
  destruct (getitem d col) as [s0|] eqn:Hget; simpl; [|by intros [<-|[]]].
  destruct (coerce_out d rule col s0) as [[s tout]|e] eqn:Hco; [|done].
  assert (Hidx : s_index s = df_index d).
  { erewrite coerce_out_index by done. by eapply getitem_index. }
  assert (Htout : forall w, In w tout -> exists j p,
             row w = Some j /\ df_index d !! p = Some j).
  { unfold coerce_out in Hco.
    destruct (r_type rule) as [[|a t]|]; simplify_eq/=; try done.
    destruct (_coerce_series_to_type _ _); simplify_eq/=.
    intros w (j & p & ? & ? & -> & ? & _)%in_type_mismatch_out. eauto. }
  destruct (regex_part rule col s) as [r re_out] eqn:Hre. simpl.
  rewrite !in_app_iff. unfold checks_out. rewrite !in_app_iff.
  intros [Hv|[[Hv|[Hv|Hv]]|Hv]] Hrow.
  - destruct (Htout v Hv) as (j & p & ? & ?). apply in_lookup.
    exists p. congruence.
  - destruct (r_not_null rule); [|done].
    apply in_not_null_out in Hv as (j & p & ? & -> & Hp & _).
    simplify_eq/=. apply in_lookup. exists p. by rewrite <- Hidx.
  - destruct (r_unique rule); [|done].
    apply in_unique_out in Hv as (j & p & -> & Hp & _).
    simplify_eq/=. apply in_lookup. eauto.
  - destruct (_ || _); [|done].
    apply in_range_out in Hv as (p & idx & val & Hp & _ & Hv).
    apply in_range_cell_out in Hv as [_ [(m & _ & ->)|[(m & _ & ->)| ->]]];
      simplify_eq/=; apply in_lookup; exists p; by rewrite <- Hidx.
  - unfold regex_part in Hre.
    destruct (r_regex rule) as [pat|]; simplify_eq/=; [|done].
    destruct (re_compile pat); simplify_eq/=; [|done].
    apply in_regex_out in Hv as (p & idx & val & Hp & _ & _ & _ & ->).
    simplify_eq/=. apply in_lookup. exists p. by rewrite <- Hidx.
Qed.

Lemma in_coerce_out d rule col s0 s tout v :
  coerce_out d rule col s0 = Ok (s, tout) -> In v tout ->
  exists t i, v = {| row := Some i; column := col;
                     error := "Type mismatch: expected " ++ t |}.
Proof.
  unfold coerce_out.
  destruct (r_type rule) as [[|a t]|]; simplify_eq/=; try by intros [= _ <-].
  destruct (_coerce_series_to_type _ _); simpl; [|done].
  intros [= _ <-] (i & ? & ? & ? & -> & _)%in_type_mismatch_out. eauto.
Qed.

(** A pass that ends without exception on a column of the table: the
    coercion succeeded, the pattern compiled, and the pass appended the
    violations of the five checks in order. *)
Lemma rule_result_present df rule col s0 :
  r_column rule = Some col -> col <> "" ->
  getitem df col = Some s0 ->
  rule_result df rule = Ok tt ->
  exists s tout,
    coerce_out df rule col s0 = Ok (s, tout)
    /\ fst (regex_part rule col s) = Ok tt
    /\ rule_errors df rule
       = tout ++ checks_out df rule col s ++ snd (regex_part rule col s).
Proof.
  intros Hcol Hne Hget. rewrite rule_result_eq, rule_errors_eq.
  destruct (coerce_out df rule col s0) as [[s tout]|e] eqn:Hco.
  - rewrite (rule_outcome_present df rule col s0 s tout) by done. simpl.
    intros Hre. by exists s, tout.
  - unfold rule_outcome. rewrite Hcol. destruct col; [done|].
    by rewrite Hget, Hco.
Qed.

End WithRuntime.

(** Closes a goal with a hypothesis [Hv] placing a violation of one check
    among those of another. *)
Ltac other_check Hv :=
  first
    [ eapply in_coerce_out in Hv as (? & ? & ?); [|done]; by simplify_eq/=
    | apply in_not_null_out in Hv as (? & ? & ? & ? & _); by simplify_eq/=
    | apply in_unique_out in Hv as (? & ? & ? & _); by simplify_eq/=
    | apply in_range_out in Hv as (? & ? & ? & _ & _ & Hv);
      apply in_range_cell_out in Hv as [_ [(? & _ & ?)|[(? & _ & ?)|?]]];
      by simplify_eq/=
    | apply in_regex_out in Hv as (? & ? & ? & _ & _ & _ & _ & ?);
      by simplify_eq/= ].

End Checks.

(* ===================================================================== *)
(** ** The report *)
(* ===================================================================== *)

Import Py Pandas Core Runs ListFacts Checks.

(** [test_basic_validation] of [tests/test_validator.py], with the whole
    report. *)
Example test_basic_validation :
  validate_data (H := Reference.runtime) Examples.users Examples.users_rules
  = Ok Examples.users_report.
Proof. by vm_compute. Qed.

(** C9: a configuration without the key [rules], or with an empty list of
    rules, is not an error: the run returns a report with no violation,
    [validation_passed] true, [rows_failed] 0 and [rows_checked] the number
    of rows of the table. *)
Theorem validate_without_rules `{Runtime} (df : DataFrame) :
  let clean :=
    {| summary := {| rows_checked := length (df_index df); rows_failed := 0;
                     validation_passed := true |};
       errors := [] |} in
  validate_data df {| cfg_rules := None |} = Ok clean
  /\ validate_data df {| cfg_rules := Some [] |} = Ok clean.
Proof. split; by rewrite validate_data_eq. Qed.

(** C2: in every report [validation_passed] is true exactly when the list
    of violations is empty, and [rows_failed] is the number of distinct row
    indices among the violations that carry a row; a rule naming a missing
    column gives a report with [rows_failed = 0] and [validation_passed]
    false. *)
Theorem summary_counts `{Runtime} :
  (forall df config rep,
      validate_data df config = Ok rep ->
      (validation_passed (summary rep) = true <-> errors rep = [])
      /\ rows_failed (summary rep)
         = length (remove_dups (omap row (errors rep))))
  /\ (exists df config rep,
         validate_data df config = Ok rep
         /\ rows_failed (summary rep) = 0%nat
         /\ validation_passed (summary rep) = false).
Proof.
  split.
  - intros df config rep. rewrite validate_data_eq.
    destruct (rules_outcome df _) as [[[]|e] out]; [|done].
    intros [= <-]. simpl. split.
    + destruct out; simpl; split; done.
    + apply size_list_to_set_distinct.
  - exists Examples.users, Examples.ghost_rules, Examples.ghost_report.
    by rewrite validate_data_eq.
Qed.

Lemma summary_counts_witness :
  (validation_passed (summary Examples.users_report) = true
   <-> errors Examples.users_report = [])
  /\ rows_failed (summary Examples.users_report)
     = length (remove_dups (omap row (errors Examples.users_report))).
Proof.
  apply (proj1 (summary_counts (H := Reference.runtime))
           Examples.users Examples.users_rules Examples.users_report).
  vm_compute. reflexivity.
Defined.

(** C10: a violation that carries a row carries a label of the index of the
    validated table; hence [rows_failed] is at most [rows_checked]. *)
Theorem violation_rows_in_index `{Runtime} df config rep :
  validate_data df config = Ok rep ->
  (forall v i, In v (errors rep) -> row v = Some i -> In i (df_index df))
  /\ (rows_failed (summary rep) <= rows_checked (summary rep))%nat.
Proof.
  intros [_ ->]%validate_data_ok.
  set (rules := default [] (cfg_rules config)).
  assert (Hrows : forall v i,
             In v (flat_map (rule_errors df) rules) ->
             row v = Some i -> In i (df_index df)).
  { intros v i (rule & _ & Hv)%in_flat_map Hrow.
    rewrite rule_errors_eq in Hv. by eapply rows_of_rule_outcome. }
  split; [exact Hrows|]. simpl.
  apply size_list_to_set_le. intros i (v & Hv & Hrow)%list_elem_of_omap.
  apply list_elem_of_In. apply list_elem_of_In in Hv. eauto.
Qed.

Lemma violation_rows_in_index_witness :
  (forall v i, In v (errors Examples.users_report) -> row v = Some i ->
               In i (df_index Examples.users))
  /\ (rows_failed (summary Examples.users_report)
      <= rows_checked (summary Examples.users_report))%nat.
Proof.
  apply (violation_rows_in_index (H := Reference.runtime)
           Examples.users Examples.users_rules Examples.users_report).
  vm_compute. reflexivity.
Defined.

(** C8: a rule naming a column that the table does not have appends one
    violation, without row, with the rule's column and the message
    "Column not found in dataset"; whatever checks the rule sets, none
    runs; and the rules before and after it run as they do without it. *)
Theorem missing_column_one_violation `{Runtime} df rule col :
  r_column rule = Some col -> col <> "" -> df_columns df !! col = None ->
  let v := {| row := None; column := col;
              error := "Column not found in dataset" |} in
  rule_result df rule = Ok tt
  /\ rule_errors df rule = [v]
  /\ forall before after rep1 rep2,
       validate_data df {| cfg_rules := Some before |} = Ok rep1 ->
       validate_data df {| cfg_rules := Some after |} = Ok rep2 ->
       validate_data df {| cfg_rules := Some (before ++ rule :: after) |}
       = Ok (report_of df (errors rep1 ++ v :: errors rep2)).
Proof.
  intros Hcol Hne Hnone v.
  assert (Hout : rule_outcome df rule = (Ok tt, [v])).
  { unfold rule_outcome, getitem. rewrite Hcol, Hnone.
    by destruct col. }
  assert (Hres : rule_result df rule = Ok tt)
    by (by rewrite rule_result_eq, Hout).
  assert (Herr : rule_errors df rule = [v])
    by (by rewrite rule_errors_eq, Hout).
  split; [done|]. split; [done|].
  intros before after rep1 rep2 [H1 ->]%validate_data_ok [H2 ->]%validate_data_ok.
  apply validate_data_ok. simpl in *. split.
  - apply Forall_app. split; [done|]. by constructor.
  - by rewrite flat_map_app; simpl; rewrite Herr.
Qed.

Lemma missing_column_one_violation_witness :
  rule_result (H := Reference.runtime) Examples.users
    (Examples.with_not_null (Examples.with_regex "(" (Examples.on_column "ghost")))
  = Ok tt
  /\ rule_errors (H := Reference.runtime) Examples.users
       (Examples.with_not_null (Examples.with_regex "(" (Examples.on_column "ghost")))
     = [{| row := None; column := "ghost";
           error := "Column not found in dataset" |}].
Proof.
  pose proof (missing_column_one_violation (H := Reference.runtime)
                Examples.users
                (Examples.with_not_null
                   (Examples.with_regex "(" (Examples.on_column "ghost")))
                "ghost" eq_refl) as Hthm.
  destruct Hthm as (Hres & Herr & _); [discriminate | reflexivity |].
  split; [exact Hres | exact Herr].
Defined.

(** C7: no pass of the loop changes the caller's table or the working
    copy, so the table is unchanged after the run; and the violations of a
    run are those each rule appends on the caller's table taken alone, so
    the coercion done for a rule is not seen by a later rule on the same
    column. *)
Theorem coercion_is_transient `{Runtime} df config :
  (forall rule st,
      st_df (snd (check_rule rule st)) = st_df st
      /\ st_df_local (snd (check_rule rule st)) = st_df_local st)
  /\ table_after df config = df
  /\ (forall rep,
        validate_data df config = Ok rep ->
        errors rep = flat_map (rule_errors df) (default [] (cfg_rules config)))
  /\ (forall R1 R2 rep,
        validate_data df {| cfg_rules := Some [R1; R2] |} = Ok rep ->
        errors rep = rule_errors df R1 ++ rule_errors df R2).
Proof.
  split; [|split; [|split]].
  - intros rule st. by rewrite (check_rule_runs (st_df_local st) rule st eq_refl).
  - apply table_after_eq.
  - by intros rep [_ ->]%validate_data_ok.
  - intros R1 R2 rep [_ ->]%validate_data_ok. simpl. by rewrite app_nil_r.
Qed.

Lemma coercion_is_transient_witness :
  errors Examples.age_twice_report
  = rule_errors (H := Reference.runtime) Examples.users Examples.age_as_text
    ++ rule_errors (H := Reference.runtime) Examples.users Examples.age_range.
Proof.
  apply (proj2 (proj2 (proj2 (coercion_is_transient (H := Reference.runtime)
                                Examples.users Examples.users_rules)))).
  vm_compute. reflexivity.
Defined.

(** C6: for a rule with a type on a column of the table, the violation
    "Type mismatch: expected <type>" is appended for the row label [i]
    exactly when, at some position with that label, the original cell is
    not null and the coerced cell is null; a label whose cells are null in
    the input gets no such violation, whatever the type. *)
Theorem type_mismatch_iff `{Runtime} df rule col t s0 coerced :
  r_column rule = Some col -> col <> "" ->
  r_type rule = Some t -> t <> "" ->
  getitem df col = Some s0 ->
  _coerce_series_to_type s0 t = Ok coerced ->
  let mismatch i := {| row := Some i; column := col;
                       error := "Type mismatch: expected " ++ t |} in
  (forall i,
      In (mismatch i) (rule_errors df rule) <->
      exists p x c,
        df_index df !! p = Some i /\ s_values s0 !! p = Some x
        /\ s_values coerced !! p = Some c
        /\ isna x = false /\ isna c = true)
  /\ (forall i,
        (forall p x, df_index df !! p = Some i -> s_values s0 !! p = Some x ->
                     isna x = true) ->
        ~ In (mismatch i) (rule_errors df rule)).
Proof.
  intros Hcol Hne Ht Htne Hget Hco mismatch.
  assert (Hiff : forall i,
      In (mismatch i) (rule_errors df rule) <->
      exists p x c,
        df_index df !! p = Some i /\ s_values s0 !! p = Some x
        /\ s_values coerced !! p = Some c
        /\ isna x = false /\ isna c = true).
  { intros i. rewrite rule_errors_eq.
    assert (Hco' : coerce_out df rule col s0
                   = Ok (coerced,
                         type_mismatch_out col t (df_index df)
                           (s_values s0) (s_values coerced))).
    { unfold coerce_out. rewrite Ht. destruct t; [done|]. by rewrite Hco. }
    rewrite (rule_outcome_present df rule col s0 _ _ Hcol Hne Hget Hco').
    simpl. rewrite in_app_iff, in_type_mismatch_out. split.
    - intros [(j & p & x & c & Heq & ?)|Hv].
      + unfold mismatch in Heq. simplify_eq. by exists p, x, c.
      + exfalso. unfold checks_out, regex_part in Hv.
        rewrite !in_app_iff in Hv.
        destruct Hv as [[Hv|[Hv|Hv]]|Hv].
        * destruct (r_not_null rule); [|done].
          by apply in_not_null_out in Hv as (? & ? & ? & ? & _).
        * destruct (r_unique rule); [|done].
          by apply in_unique_out in Hv as (? & ? & ? & _).
        * destruct (_ || _); [|done].
          apply in_range_out in Hv as (? & ? & ? & _ & _ & Hv).
          by apply in_range_cell_out in Hv as [_ [(? & _ & ?)|[(? & _ & ?)|?]]].
        * destruct (r_regex rule) as [pat|]; [|done].
          destruct (re_compile pat); [|done].
          by apply in_regex_out in Hv as (? & ? & ? & _ & _ & _ & _ & ?).
    - intros (p & x & c & ?). left. by exists i, p, x, c. }
  split; [exact Hiff|].
  intros i Hnull (p & x & c & Hp & Hx & _ & Hnx & _)%Hiff.
  specialize (Hnull p x Hp Hx). congruence.
Qed.

Lemma type_mismatch_iff_witness :
  In {| row := Some 0; column := "n"; error := "Type mismatch: expected int" |}
    (rule_errors (H := Reference.runtime) Examples.mixed Examples.mixed_int)
  /\ ~ In {| row := Some 2; column := "n";
             error := "Type mismatch: expected int" |}
        (rule_errors (H := Reference.runtime) Examples.mixed Examples.mixed_int).
Proof.
  destruct (type_mismatch_iff (H := Reference.runtime)
              Examples.mixed Examples.mixed_int "n" "int"
              Examples.mixed_raw Examples.mixed_coerced)
    as [Hiff Hnull];
    [reflexivity | discriminate | reflexivity | discriminate
    | vm_compute; reflexivity | vm_compute; reflexivity |].
  split.
  - apply Hiff. exists 0%nat, (VStr "abc"), VNull. by vm_compute.
  - apply Hnull. intros [|[|[|p]]] x; vm_compute; intros; by simplify_eq.
Defined.



(** The messages of the range loop are pairwise distinct. *)
Lemma below_not_above `{Runtime} col idx val m m' :
  below_min col idx val m <> above_max col idx val m'.
Proof.
  unfold below_min, above_max. intros [= Heq].
  apply (string_app_inv_head (str val)) in Heq. simpl in Heq. done.
Qed.

Lemma in_min_part `{Runtime} col lo idx val o v :
  min_part col lo idx val = Ok o -> In v o ->
  exists m, lo = Some m /\ v = below_min col idx val m.
Proof.
  unfold min_part. destruct lo as [m|]; [|by intros [= <-]].
  destruct (_maybe_cast _ _ ≫= _) as [[|]|]; simpl;
    [| by intros [= <-] [] | done].
  intros [= <-] [<-|[]]. eauto.
Qed.

Lemma in_max_part `{Runtime} col hi idx val o v :
  max_part col hi idx val = Ok o -> In v o ->
  exists m, hi = Some m /\ v = above_max col idx val m.
Proof.
  unfold max_part. destruct hi as [m|]; [|by intros [= <-]].
  destruct (_maybe_cast _ _ ≫= _) as [[|]|]; simpl;
    [| by intros [= <-] [] | done].
  intros [= <-] [<-|[]]. eauto.
Qed.

(** C4, with the proviso the code makes: for a rule with [min] or [max] on
    a column of the table, a null cell appends no range violation; a cell
    equal to the cast min is not below it and appends no "below min"
    violation, a cell below the cast min appends "Value <v> below min
    <min>"; a cell equal to the cast max appends no "above max" violation,
    and a cell above the cast max appends "Value <v> above max <max>"
    whenever the test against min did not raise, whether or not that test
    appended its own violation; a cell inside the bounds, the bounds
    included, appends nothing.  With min 0 and max 120 the values 0 and 120
    pass and -1 and 121 fail; with min 120 and max 0 the value 50 gets both
    violations. *)
Theorem range_bounds_inclusive `{Runtime} :
  (forall df rule col s0 s tout p idx val,
      r_column rule = Some col -> col <> "" ->
      getitem df col = Some s0 ->
      coerce_out df rule col s0 = Ok (s, tout) ->
      is_not_None (r_min rule) || is_not_None (r_max rule) = true ->
      s_index s !! p = Some idx -> s_values s !! p = Some val ->
      let out := range_cell_out col (r_min rule) (r_max rule) idx val in
      (forall st, range_check col (r_min rule) (r_max rule) idx val st
                  = (Ok tt, add_errors out st))
      /\ (forall v, In v out -> In v (rule_errors df rule))
      /\ (isna val = true -> out = [])
      /\ (forall m b,
            r_min rule = Some m -> isna val = false ->
            _maybe_cast m val = Ok b ->
            (eqb val b = true -> lt val b = Ok false)
            /\ (lt val b = Ok false -> ~ In (below_min col idx val m) out)
            /\ (lt val b = Ok true -> In (below_min col idx val m) out))
      /\ (forall m b,
            r_max rule = Some m -> isna val = false ->
            _maybe_cast m val = Ok b ->
            (eqb val b = true -> gt val b = Ok false)
            /\ (gt val b = Ok false -> ~ In (above_max col idx val m) out)
            /\ (gt val b = Ok true ->
                (forall m0, r_min rule = Some m0 ->
                            exists b0 below,
                              _maybe_cast m0 val = Ok b0
                              /\ lt val b0 = Ok below) ->
                In (above_max col idx val m) out))
      /\ (forall m b m' b',
            r_min rule = Some m -> r_max rule = Some m' ->
            isna val = false ->
            _maybe_cast m val = Ok b -> _maybe_cast m' val = Ok b' ->
            lt val b = Ok false -> gt val b' = Ok false ->
            out = []))
  /\ rule_errors Examples.ages Examples.age_range
     = [{| row := Some 2; column := "age"; error := "Value -1 below min 0" |};
        {| row := Some 3; column := "age";
           error := "Value 121 above max 120" |}]
  /\ rule_errors Examples.fifty Examples.age_crossed
     = [{| row := Some 0; column := "age";
           error := "Value 50 below min 120" |};
        {| row := Some 0; column := "age"; error := "Value 50 above max 0" |}].
Proof.
  split; [|split; by rewrite rule_errors_eq].
  intros df rule col s0 s tout p idx val Hcol Hne Hget Hco Hset Hidx Hval out.
  split; [|split; [|split; [|split; [|split]]]].
  - intros st. by apply (range_check_runs (st_df_local st)).
  - intros v Hv. rewrite rule_errors_eq.
    rewrite (rule_outcome_present df rule col s0 s tout) by done. simpl.
    unfold checks_out. rewrite Hset, !in_app_iff.
    right; left; right; right. apply in_range_out. by exists p, idx, val.
  - intros Hna. unfold out, range_cell_out. by rewrite Hna.
  - intros m b Hmin Hna Hcast.
    split; [by intros [? _]%eqb_not_lt|].
    unfold out, range_cell_out. rewrite Hna.
    assert (Hpart : forall r, lt val b = Ok r ->
               min_part col (r_min rule) idx val
               = Ok (if r then [below_min col idx val m] else [])).
    { intros r Hr. unfold min_part. rewrite Hmin, Hcast. simpl. by rewrite Hr. }
    split; intros Hlt; rewrite (Hpart _ Hlt); simpl; [|by left].
    destruct (max_part col (r_max rule) idx val) as [o2|e] eqn:Hmax.
    + intros (m' & _ & Heq)%(in_max_part _ _ _ _ _ _ Hmax).
      by apply below_not_above in Heq.
    + by intros [?|[]].
  - intros m b Hmax Hna Hcast.
    split; [by intros [_ ?]%eqb_not_lt|].
    unfold out, range_cell_out. rewrite Hna.
    assert (Hpart : forall r, gt val b = Ok r ->
               max_part col (r_max rule) idx val
               = Ok (if r then [above_max col idx val m] else [])).
    { intros r Hr. unfold max_part. rewrite Hmax, Hcast. simpl. by rewrite Hr. }
    split.
    + intros Hgt. rewrite (Hpart _ Hgt).
      destruct (min_part col (r_min rule) idx val) as [o1|e] eqn:Hmin.
      * rewrite app_nil_r.
        intros (m' & _ & Heq)%(in_min_part _ _ _ _ _ _ Hmin).
        symmetry in Heq. by apply below_not_above in Heq.
      * by intros [?|[]].
    + intros Hgt Hmin. rewrite (Hpart _ Hgt).
      assert (Ho : exists o, min_part col (r_min rule) idx val = Ok o).
      { unfold min_part. destruct (r_min rule) as [m0|]; [|eauto].
        destruct (Hmin m0 eq_refl) as (b0 & below & -> & Hlt). simpl.
        rewrite Hlt. simpl. eauto. }
      destruct Ho as [o ->]. apply in_app_iff. right. by left.
  - intros m b m' b' Hmin Hmax Hna Hcast Hcast' Hlt Hgt.
    unfold out, range_cell_out, min_part, max_part.
    rewrite Hna, Hmin, Hmax, Hcast, Hcast'. simpl. by rewrite Hlt, Hgt.
Qed.

Lemma range_bounds_inclusive_witness :
  In {| row := Some 2; column := "age"; error := "Value -1 below min 0" |}
    (rule_errors (H := Reference.runtime) Examples.ages Examples.age_range)
  /\ ~ In {| row := Some 0; column := "age"; error := "Value 0 below min 0" |}
         (range_cell_out (H := Reference.runtime) "age" (Some (VInt 0))
            (Some (VInt 120)) 0 (VInt 0)).
Proof.
  pose (column :=
          {| s_index := [0; 1; 2; 3; 4];
             s_values := [VInt 0; VInt 120; VInt (-1); VInt 121; VNull] |}).
  split.
  - destruct (proj1 (range_bounds_inclusive (H := Reference.runtime))
                Examples.ages Examples.age_range "age" column column []
                2%nat 2 (VInt (-1)))
      as (_ & Hin & _ & Hmin & _);
      [reflexivity | discriminate | reflexivity | reflexivity | reflexivity
      | reflexivity | reflexivity |].
    apply Hin.
    apply (Hmin (VInt 0) (VFloat 0)); reflexivity.
  - destruct (proj1 (range_bounds_inclusive (H := Reference.runtime))
                Examples.ages Examples.age_range "age" column column []
                0%nat 0 (VInt 0))
      as (_ & _ & _ & Hmin & _);
      [reflexivity | discriminate | reflexivity | reflexivity | reflexivity
      | reflexivity | reflexivity |].
    apply (Hmin (VInt 0) (VFloat 0)); reflexivity.
Defined.

(** C4 as stated fails: 200.0 is above the cast max 120.0, yet the report
    holds no "above max" violation, because the cast of the min ["abc"]
    raised first and the handler ends the checks of the cell. *)
Lemma range_above_depends_on_min :
  _maybe_cast (H := Reference.runtime) (VInt 120) (VFloat 200)
  = Ok (VFloat 120)
  /\ gt (VFloat 200) (VFloat 120) = Ok true
  /\ validate_data (H := Reference.runtime) Examples.weights
       (Examples.rules [Examples.weight_range])
     = Ok {| summary := {| rows_checked := 1; rows_failed := 1;
                           validation_passed := false |};
             errors := [{| row := Some 0; column := "kg";
                           error := "Range check failed (incomparable types)"
                        |}] |}.
Proof. repeat split; vm_compute; reflexivity. Qed.

(** C5: for a rule with a pattern that compiles, on a column of the table,
    the violation "Regex mismatch: <text>" is appended for a row exactly
    when the cell of the (possibly coerced) column is not null and its text
    does not match the pattern as a whole; null cells are skipped.  With
    the reference engine the e-mail pattern rejects [bad@] and accepts
    [a@b.com], and a pattern that matches only a part of the text does not
    match. *)
Theorem regex_full_match `{Runtime} :
  (forall df rule col s0 s tout pat pattern,
      r_column rule = Some col -> col <> "" ->
      getitem df col = Some s0 ->
      coerce_out df rule col s0 = Ok (s, tout) ->
      r_regex rule = Some pat -> re_compile pat = Some pattern ->
      forall i text,
        In {| row := Some i; column := col;
              error := "Regex mismatch: " ++ text |} (rule_errors df rule)
        <-> exists p val,
              s_index s !! p = Some i /\ s_values s !! p = Some val
              /\ isna val = false
              /\ re_fullmatch pattern (str val) = false
              /\ text = str val)
  /\ (exists pattern,
         Regex.compile Examples.email_pattern = Some pattern
         /\ Regex.fullmatch pattern "bad@" = false
         /\ Regex.fullmatch pattern "a@b.com" = true)
  /\ (exists pattern,
         Regex.compile "b" = Some pattern
         /\ Regex.fullmatch pattern "abc" = false
         /\ Regex.fullmatch pattern "b" = true)
  /\ rule_errors (H := Reference.runtime) Examples.emails Examples.email_rule
     = [{| row := Some 1; column := "email";
           error := "Regex mismatch: bad@" |}].
Proof.
  split; [|split; [|split]].
  - intros df rule col s0 s tout pat pattern Hcol Hne Hget Hco Hpat Hcomp i text.
    rewrite rule_errors_eq.
    rewrite (rule_outcome_present df rule col s0 s tout) by done.
    unfold regex_part, checks_out. rewrite Hpat, Hcomp. simpl.
    rewrite !in_app_iff. split.
    + intros [Hv|[[Hv|[Hv|Hv]]|Hv]].
      * other_check Hv.
      * destruct (r_not_null rule); [other_check Hv | done].
      * destruct (r_unique rule); [other_check Hv | done].
      * destruct (_ || _); [other_check Hv | done].
      * apply in_regex_out in Hv
          as (p & idx & val & Hp & Hval & Hna & Hm & Heq).
        simplify_eq/=. by exists p, val.
    + intros (p & val & Hp & Hval & Hna & Hm & ->).
      right; right. apply in_regex_out. by exists p, i, val.
  - eexists. by vm_compute.
  - eexists. by vm_compute.
  - by vm_compute.
Qed.

Lemma regex_full_match_witness :
  In {| row := Some 1; column := "email"; error := "Regex mismatch: bad@" |}
    (rule_errors (H := Reference.runtime) Examples.emails Examples.email_rule)
  <-> exists p val,
        [0; 1; 2] !! p = Some 1
        /\ [VStr "a@b.com"; VStr "bad@"; VNull] !! p = Some val
        /\ isna val = false
        /\ Regex.fullmatch
             (default Regex.Eps (Regex.compile Examples.email_pattern))
             (str (H := Reference.runtime) val) = false
        /\ "bad@" = str (H := Reference.runtime) val.
Proof.
  apply (proj1 (regex_full_match (H := Reference.runtime))
           Examples.emails Examples.email_rule "email"
           {| s_index := [0; 1; 2];
              s_values := [VStr "a@b.com"; VStr "bad@"; VNull] |}
           {| s_index := [0; 1; 2];
              s_values := [VStr "a@b.com"; VStr "bad@"; VNull] |}
           [] Examples.email_pattern
           (default Regex.Eps (Regex.compile Examples.email_pattern)));
    [reflexivity | discriminate | reflexivity | reflexivity | reflexivity
    | vm_compute; reflexivity].
Defined.

(** *** The coercion to [int] *)

Lemma astype_Int64_cell_raises v e :
  astype_Int64_cell v = Raise e -> e = TypeError.
Proof. destruct v; simpl; try done; try by intros [= <-]. by case_match; intros [= <-]. Qed.

(** One float that holds no integer makes the cast of the column raise. *)
Lemma astype_Int64_raises (vals : list value) (q : Q) :
  In (VFloat q) vals -> is_integral q = false ->
  astype_Int64 vals = Raise TypeError.
Proof.
  intros Hin Hq. induction vals as [|v vals IH]; [done|]. simpl.
  destruct (astype_Int64_cell v) as [c|e] eqn:Hv; simpl.
  - destruct Hin as [->|Hin]; [simpl in Hv; by rewrite Hq in Hv|].
    by rewrite (IH Hin).
  - by rewrite (astype_Int64_cell_raises v e Hv).
Qed.

(** A cell read as a float stays a float in the numeric column. *)
Lemma to_numeric_keeps_float `{Runtime} (vals : list value) (c : value) (q : Q) :
  In c vals -> to_numeric_cell c = Some (inr q) ->
  In (VFloat q) (to_numeric vals).
Proof.
  intros Hin Hc. unfold to_numeric.
  destruct (forallb is_masked_int vals) eqn:Hmasked.
  { rewrite forallb_forall in Hmasked. specialize (Hmasked c Hin).
    by destruct c. }
  destruct (forallb is_inl (map to_numeric_cell vals)) eqn:Hint.
  { rewrite forallb_forall in Hint.
    specialize (Hint (to_numeric_cell c) (in_map _ _ _ Hin)).
    by rewrite Hc in Hint. }
  apply in_map_iff. exists (Some (inr q)). split; [done|].
  rewrite <- Hc. by apply in_map.
Qed.

(** A rule of type [int] on a column with a cell read as a float that
    holds no integer ends its pass, and the run, with [TypeError]. *)
Lemma int_coercion_raises `{Runtime} df rule col raw c q :
  r_column rule = Some col -> col <> "" ->
  r_type rule = Some "int" ->
  df_columns df !! col = Some raw ->
  In c raw -> to_numeric_cell c = Some (inr q) -> is_integral q = false ->
  rule_result df rule = Raise TypeError
  /\ forall after,
       validate_data df {| cfg_rules := Some (rule :: after) |}
       = Raise TypeError.
Proof.
  intros Hcol Hne Htype Hraw Hin Hc Hq.
  assert (Hout : rule_outcome df rule = (Raise TypeError, [])).
  { unfold rule_outcome, getitem, coerce_out. rewrite Hcol, Hraw, Htype.
    destruct col; [done|]. simpl.
    unfold _coerce_series_to_type. simpl.
    by rewrite (astype_Int64_raises _ q (to_numeric_keeps_float raw c q Hin Hc) Hq). }
  split; [by rewrite rule_result_eq, Hout|].
  intros after. rewrite validate_data_eq. simpl. by rewrite Hout.
Qed.

(** C1, on the code: a column [age] holding 3.5, as a float or as the
    text "3.5", checked by a rule of type [int], does not give a report
    with one "Type mismatch" violation: the cast to [Int64] raises
    [TypeError] and the run ends without report. *)
Theorem int_coercion_aborts_on_fraction `{Runtime} :
  validate_data Examples.age_float Examples.age_int_rules = Raise TypeError
  /\ validate_data (H := Reference.runtime) Examples.age_text
       Examples.age_int_rules
     = Raise TypeError.
Proof.
  split.
  - apply (int_coercion_raises Examples.age_float _ "age"
             [VFloat (7 # 2)] (VFloat (7 # 2)) (7 # 2)); try done.
    by left.
  - by vm_compute.
Qed.

(* ===================================================================== *)
(** ** Further properties of a run *)
(* ===================================================================== *)

(** A rule without the key [column], or with an empty column name, appends
    the one violation "Rule missing 'column' key" under the column "-",
    without row; no other key of the rule is looked at, and the rules
    around it run as they do without it. *)
Theorem missing_column_key `{Runtime} df rule :
  r_column rule = None \/ r_column rule = Some "" ->
  let v := {| row := None; column := "-";
              error := "Rule missing 'column' key" |} in
  rule_result df rule = Ok tt
  /\ rule_errors df rule = [v]
  /\ forall before after rep1 rep2,
       validate_data df {| cfg_rules := Some before |} = Ok rep1 ->
       validate_data df {| cfg_rules := Some after |} = Ok rep2 ->
       validate_data df {| cfg_rules := Some (before ++ rule :: after) |}
       = Ok (report_of df (errors rep1 ++ v :: errors rep2)).
Proof.
  intros Hcol v.
  assert (Hout : rule_outcome df rule = (Ok tt, [v])).
  { unfold rule_outcome. by destruct Hcol as [-> | ->]. }
  assert (Hres : rule_result df rule = Ok tt)
    by (by rewrite rule_result_eq, Hout).
  assert (Herr : rule_errors df rule = [v])
    by (by rewrite rule_errors_eq, Hout).
  split; [done|]. split; [done|].
  intros before after rep1 rep2 [H1 ->]%validate_data_ok [H2 ->]%validate_data_ok.
  apply validate_data_ok. simpl in *. split.
  - apply Forall_app. split; [done|]. by constructor.
  - by rewrite flat_map_app; simpl; rewrite Herr.
Qed.

Lemma missing_column_key_witness :
  rule_errors (H := Reference.runtime) Examples.users
    (Examples.with_type "int"
       (Examples.with_regex "("
          {| r_column := Some ""; r_type := None; r_not_null := true;
             r_unique := true; r_min := None; r_max := None;
             r_regex := None |}))
  = [{| row := None; column := "-"; error := "Rule missing 'column' key" |}].
Proof.
  apply (missing_column_key (H := Reference.runtime) Examples.users).
  right. reflexivity.
Defined.

(** Running two rule sets one after the other: when the runs on [rs1] and
    on [rs2] both return, so does the run on [rs1 ++ rs2]; its violations
    are those of the first followed by those of the second, it passes when
    both pass, and it fails at most as many rows as both together and at
    least as many as each.  When one of the two runs raises, so does the
    run on [rs1 ++ rs2]. *)
Theorem validate_data_app `{Runtime} df rs1 rs2 :
  (forall rep1 rep2,
      validate_data df {| cfg_rules := Some rs1 |} = Ok rep1 ->
      validate_data df {| cfg_rules := Some rs2 |} = Ok rep2 ->
      exists rep,
        validate_data df {| cfg_rules := Some (rs1 ++ rs2) |} = Ok rep
        /\ errors rep = errors rep1 ++ errors rep2
        /\ rows_checked (summary rep) = rows_checked (summary rep1)
        /\ validation_passed (summary rep)
           = validation_passed (summary rep1)
             && validation_passed (summary rep2)
        /\ (rows_failed (summary rep)
            <= rows_failed (summary rep1) + rows_failed (summary rep2))%nat
        /\ (rows_failed (summary rep1) <= rows_failed (summary rep))%nat
        /\ (rows_failed (summary rep2) <= rows_failed (summary rep))%nat)
  /\ (forall rep,
        validate_data df {| cfg_rules := Some (rs1 ++ rs2) |} = Ok rep ->
        exists rep1 rep2,
          validate_data df {| cfg_rules := Some rs1 |} = Ok rep1
          /\ validate_data df {| cfg_rules := Some rs2 |} = Ok rep2).
Proof.
  split.
  - intros rep1 rep2 [H1 ->]%validate_data_ok [H2 ->]%validate_data_ok.
    simpl in *.
    set (e1 := flat_map (rule_errors df) rs1).
    set (e2 := flat_map (rule_errors df) rs2).
    exists (report_of df (e1 ++ e2)).
    split.
    { apply validate_data_ok. simpl. rewrite Forall_app, flat_map_app. done. }
    simpl. split; [done|]. split; [done|].
    split; [by destruct e1, e2|].
    unfold failed_rows. rewrite omap_app, list_to_set_app_L.
    split.
    { rewrite size_union_alt.
      apply Nat.add_le_mono_l, subseteq_size, subseteq_difference_l.
      done. }
    split; apply subseteq_size;
      [apply union_subseteq_l | apply union_subseteq_r].
  - intros rep [[H1 H2]%Forall_app _]%validate_data_ok. simpl in *.
    eexists _, _. split; by apply validate_data_ok.
Qed.

Lemma validate_data_app_witness :
  exists rep,
    validate_data (H := Reference.runtime) Examples.users
      {| cfg_rules := Some ([Examples.on_column "ghost"]
                            ++ default [] (cfg_rules Examples.users_rules)) |}
    = Ok rep
    /\ errors rep
       = errors Examples.ghost_report ++ errors Examples.users_report.
Proof.
  destruct (proj1 (validate_data_app (H := Reference.runtime) Examples.users
                     [Examples.on_column "ghost"]
                     (default [] (cfg_rules Examples.users_rules)))
              Examples.ghost_report Examples.users_report)
    as (rep & Hrun & Herr & _);
    [vm_compute; reflexivity | vm_compute; reflexivity |].
  exists rep. split; [exact Hrun | exact Herr].
Defined.

(** The order of the rules changes the order of the violations and
    nothing else: a run on a permutation of the rules returns when the run
    on the rules does, with a permutation of its violations and the same
    summary. *)
Theorem rule_order_only_orders `{Runtime} df rules rules' rep :
  rules ≡ₚ rules' ->
  validate_data df {| cfg_rules := Some rules |} = Ok rep ->
  exists rep',
    validate_data df {| cfg_rules := Some rules' |} = Ok rep'
    /\ errors rep ≡ₚ errors rep'
    /\ summary rep' = summary rep.
Proof.
  intros Hperm [Hok ->]%validate_data_ok. simpl in *.
  assert (Herrs : flat_map (rule_errors df) rules
                  ≡ₚ flat_map (rule_errors df) rules')
    by by apply Permutation_flat_map.
  exists (report_of df (flat_map (rule_errors df) rules')).
  split; [|split; [exact Herrs|]].
  - apply validate_data_ok. simpl. split; [|done].
    by rewrite <- Hperm.
  - unfold report_of. simpl. f_equal. f_equal.
    + unfold failed_rows. apply list_to_set_perm_L.
      symmetry. by apply omap_Permutation.
    + by rewrite (Permutation_length Herrs).
Qed.

Lemma rule_order_only_orders_witness :
  exists rep',
    validate_data (H := Reference.runtime) Examples.users
      {| cfg_rules := Some (rev (default [] (cfg_rules Examples.users_rules))) |}
    = Ok rep'
    /\ errors Examples.users_report ≡ₚ errors rep'
    /\ summary rep' = summary Examples.users_report.
Proof.
  apply (rule_order_only_orders (H := Reference.runtime) Examples.users
           (default [] (cfg_rules Examples.users_rules))).
  - apply Permutation_rev.
  - vm_compute. reflexivity.
Defined.

(** *** When a run raises *)










Lemma rules_outcome_raises `{Runtime} d rules e :
  fst (rules_outcome d rules) = Raise e <->
  exists before rule after,
    rules = before ++ rule :: after
    /\ Forall (fun r => fst (rule_outcome d r) = Ok tt) before
    /\ fst (rule_outcome d rule) = Raise e.
Proof.
  induction rules as [|r rules IH]; simpl.
  - split; [done|]. intros (before & ? & ? & Heq & _). by destruct before.
  - destruct (rule_outcome d r) as [[[]|e0] out] eqn:Hr; simpl.
    + assert (Hfst : fst (let '(r1, out') := rules_outcome d rules in
                          (r1, out ++ out'))
                     = fst (rules_outcome d rules))
        by by destruct (rules_outcome d rules).
      rewrite Hfst, IH. split.
      * intros (before & rule & after & -> & Hok & Hraise).
        exists (r :: before), rule, after. split; [done|].
        split; [|done]. constructor; [by rewrite Hr | done].
      * intros ([|r0 before] & rule & after & Heq & Hok & Hraise);
          simplify_eq/=.
        -- rewrite Hr in Hraise. done.
        -- apply Forall_cons in Hok as [_ Hok]. by exists before, rule, after.
    + split.
      * intros [= <-]. exists [], r, rules. by rewrite Hr.
      * intros ([|r0 before] & rule & after & Heq & Hok & Hraise);
          simplify_eq/=.
        -- by rewrite Hr in Hraise.
        -- apply Forall_cons in Hok as [Hr0 _]. rewrite Hr in Hr0. done.
Qed.

(** A run raises exactly when one of its passes does, after passes that
    all went through; the exception of the run is that of the pass. *)
Theorem run_raises_iff `{Runtime} df rules e :
  validate_data df {| cfg_rules := Some rules |} = Raise e <->
  exists before rule after,
    rules = before ++ rule :: after
    /\ Forall (fun r => rule_result df r = Ok tt) before
    /\ rule_result df rule = Raise e.
Proof.
  rewrite validate_data_eq. simpl.
  transitivity (fst (rules_outcome df rules) = Raise e).
  { destruct (rules_outcome df rules) as [[[]|e0] out]; simpl; [done|].
    split; by intros [= <-]. }
  rewrite rules_outcome_raises.
  split; intros (before & rule & after & -> & Hok & Hraise);
    exists before, rule, after; (split; [done|]).
  - rewrite rule_result_eq. split; [|done].
    eapply Forall_impl; [exact Hok|]. intros r Hr. by rewrite rule_result_eq.
  - rewrite rule_result_eq in Hraise. split; [|done].
    eapply Forall_impl; [exact Hok|]. intros r Hr.
    rewrite <- rule_result_eq. exact Hr.
Qed.

Lemma run_raises_iff_witness :
  validate_data (H := Reference.runtime) Examples.emails
    {| cfg_rules := Some [Examples.email_rule;
                          Examples.with_regex "(" (Examples.on_column "email");
                          Examples.on_column "ghost"] |}
  = Raise ReError.
Proof.
  apply (run_raises_iff (H := Reference.runtime)).
  exists [Examples.email_rule],
         (Examples.with_regex "(" (Examples.on_column "email")),
         [Examples.on_column "ghost"].
  split; [reflexivity|]. split.
  - constructor; [by vm_compute | constructor].
  - by vm_compute.
Defined.

(** Whether a pass returns or raises depends on the keys [column], [type]
    and [regex] of the rule only: setting or changing [not_null], [unique],
    [min] or [max] never makes a run raise, nor keeps it from raising. *)
Theorem checks_never_abort `{Runtime} df rule rule' :
  r_column rule = r_column rule' ->
  r_type rule = r_type rule' ->
  r_regex rule = r_regex rule' ->
  rule_result df rule = rule_result df rule'.
Proof.
  intros Hcol Htype Hregex. rewrite !rule_result_eq.
  unfold rule_outcome. rewrite <- Hcol.
  destruct (r_column rule) as [[|c col']|]; try done.
  destruct (getitem df (String c col')) as [s0|]; [|done].
  assert (Hco : fst <$> coerce_out df rule (String c col') s0
                = fst <$> coerce_out df rule' (String c col') s0).
  { unfold coerce_out. rewrite <- Htype.
    by destruct (r_type rule) as [[|a t]|]. }
  destruct (coerce_out df rule _ s0) as [[s tout]|e],
           (coerce_out df rule' _ s0) as [[s' tout']|e'];
    simplify_eq/=; try done.
  unfold regex_part. rewrite <- Hregex.
  destruct (r_regex rule) as [pat|]; [|done]. by destruct (re_compile pat).
Qed.

Lemma checks_never_abort_witness :
  rule_result (H := Reference.runtime) Examples.weights Examples.weight_range
  = rule_result (H := Reference.runtime) Examples.weights
      (Examples.on_column "kg").
Proof.
  apply (checks_never_abort (H := Reference.runtime)); reflexivity.
Defined.

(** The not-null check works on the coerced column: for a rule on a column
    of the table whose coercion went through, "Null value not allowed" is
    appended for a row exactly when [not_null] is set and the coerced cell
    of the row is null.  So with [not_null] set, every row that gets a
    "Type mismatch" violation gets "Null value not allowed" as well. *)
Theorem not_null_iff `{Runtime} df rule col s0 s tout :
  r_column rule = Some col -> col <> "" ->
  getitem df col = Some s0 ->
  coerce_out df rule col s0 = Ok (s, tout) ->
  let null_at i := {| row := Some i; column := col;
                      error := "Null value not allowed" |} in
  (forall i,
      In (null_at i) (rule_errors df rule) <->
      r_not_null rule = true
      /\ exists p c,
           df_index df !! p = Some i /\ s_values s !! p = Some c
           /\ isna c = true)
  /\ (r_not_null rule = true ->
      forall i t,
        In {| row := Some i; column := col;
              error := "Type mismatch: expected " ++ t |}
          (rule_errors df rule) ->
        In (null_at i) (rule_errors df rule)).
Proof.
  intros Hcol Hne Hget Hco null_at.
  assert (Hidx : s_index s = df_index df).
  { erewrite coerce_out_index by done. by eapply getitem_index. }
  assert (Herrs : rule_errors df rule
                  = tout ++ checks_out df rule col s
                         ++ snd (regex_part rule col s)).
  { rewrite rule_errors_eq.
    by rewrite (rule_outcome_present df rule col s0 s tout). }
  assert (Hiff : forall i,
      In (null_at i) (rule_errors df rule) <->
      r_not_null rule = true
      /\ exists p c,
           df_index df !! p = Some i /\ s_values s !! p = Some c
           /\ isna c = true).
  { intros i. rewrite Herrs. unfold checks_out, regex_part.
    rewrite !in_app_iff. split.
    - intros [Hv|[[Hv|[Hv|Hv]]|Hv]].
      + other_check Hv.
      + destruct (r_not_null rule); [|done]. split; [done|].
        apply in_not_null_out in Hv as (j & p & c & Heq & Hp & Hc & Hna).
        unfold null_at in Heq. simplify_eq. exists p, c.
        by rewrite <- Hidx.
      + destruct (r_unique rule); [other_check Hv | done].
      + destruct (_ || _); [other_check Hv | done].
      + destruct (r_regex rule) as [pat|]; [|done].
        destruct (re_compile pat); [other_check Hv | done].
    - intros [-> (p & c & Hp & Hc & Hna)].
      right; left; left. apply in_not_null_out. exists i, p, c.
      by rewrite Hidx. }
  split; [exact Hiff|].
  intros Hnn i t Hin. apply Hiff. split; [done|].
  rewrite Herrs in Hin. unfold checks_out, regex_part in Hin.
  rewrite !in_app_iff in Hin.
  destruct Hin as [Hv|[[Hv|[Hv|Hv]]|Hv]].
  - unfold coerce_out in Hco.
    destruct (r_type rule) as [[|a t']|]; simplify_eq/=; try done.
    destruct (_coerce_series_to_type s0 (String a t')) as [coerced|];
      simplify_eq/=.
    apply in_type_mismatch_out in Hv
      as (j & p & x & c & Heq & Hp & _ & Hc & _ & Hna).
    simplify_eq. by exists p, c.
  - destruct (r_not_null rule); [other_check Hv | done].
  - destruct (r_unique rule); [other_check Hv | done].
  - destruct (_ || _); [other_check Hv | done].
  - destruct (r_regex rule) as [pat|]; [|done].
    destruct (re_compile pat); [other_check Hv | done].
Qed.

Lemma not_null_iff_witness :
  In {| row := Some 0; column := "n"; error := "Null value not allowed" |}
    (rule_errors (H := Reference.runtime) Examples.mixed
       (Examples.with_not_null Examples.mixed_int)).
Proof.
  destruct (not_null_iff (H := Reference.runtime) Examples.mixed
              (Examples.with_not_null Examples.mixed_int) "n"
              Examples.mixed_raw Examples.mixed_coerced
              [{| row := Some 0; column := "n";
                  error := "Type mismatch: expected int" |}])
    as [_ Hboth];
    [reflexivity | discriminate | reflexivity | vm_compute; reflexivity |].
  apply (Hboth eq_refl 0 "int"). vm_compute. by left.
Defined.

(** *** The types *)

(** The rule without its key [type]. *)
Definition without_type (r : Rule) : Rule :=
  {| r_column := r_column r; r_type := None; r_not_null := r_not_null r;
     r_unique := r_unique r; r_min := r_min r; r_max := r_max r;
     r_regex := r_regex r |}.

Lemma select_null_and_not_null {A} (vals : list value) (index : list A) :
  select (mask_and (map isna vals) (map notna vals)) index = [].
Proof.
  revert index. induction vals as [|v vals IH]; intros [|i index]; simpl;
    try done.
  unfold notna. destruct (isna v); simpl; apply IH.
Qed.

(** A type other than the four known ones is ignored: the rule gives the
    violations, and the outcome, of the same rule without type.  No
    coercion is done and no "Type mismatch" is reported. *)
Theorem unknown_type_is_ignored `{Runtime} df rule t :
  r_type rule = Some t ->
  t <> "int" -> t <> "float" -> t <> "string" -> t <> "date" ->
  rule_result df rule = rule_result df (without_type rule)
  /\ rule_errors df rule = rule_errors df (without_type rule).
Proof.
  intros Ht Hint Hfloat Hstring Hdate.
  assert (Hco : forall s0, _coerce_series_to_type s0 t = Ok s0).
  { intros s0. unfold _coerce_series_to_type.
    by rewrite !(proj2 (String.eqb_neq _ _)). }
  assert (Hout : rule_outcome df rule = rule_outcome df (without_type rule)).
  { unfold rule_outcome. simpl.
    destruct (r_column rule) as [[|c col]|]; try done.
    destruct (getitem df (String c col)) as [s0|]; [|done].
    unfold coerce_out. simpl. rewrite Ht.
    destruct t as [|a t]; [done|]. rewrite Hco. simpl.
    unfold type_mismatch_out. by rewrite select_null_and_not_null. }
  by rewrite !rule_result_eq, !rule_errors_eq, Hout.
Qed.

Lemma unknown_type_is_ignored_witness :
  rule_errors (H := Reference.runtime) Examples.mixed
    (Examples.with_not_null (Examples.with_type "integer" (Examples.on_column "n")))
  = rule_errors (H := Reference.runtime) Examples.mixed
      (without_type
         (Examples.with_not_null
            (Examples.with_type "integer" (Examples.on_column "n")))).
Proof.
  apply (unknown_type_is_ignored (H := Reference.runtime) Examples.mixed
           (Examples.with_not_null
              (Examples.with_type "integer" (Examples.on_column "n")))
           "integer" eq_refl); discriminate.
Defined.

Lemma str_astype_string `{Runtime} (v : value) :
  isna v = false -> str (VStr (str v)) = str v.
Proof. done. Qed.

Lemma astype_string_isna `{Runtime} (vals : list value) :
  map isna (astype_string vals) = map isna vals.
Proof.
  unfold astype_string. rewrite map_map. apply map_ext.
  intros v. by destruct (isna v) eqn:Hv.
Qed.

Lemma regex_out_astype_string `{Runtime} col pattern index vals :
  regex_out col pattern
    {| s_index := index; s_values := astype_string vals |}
  = regex_out col pattern {| s_index := index; s_values := vals |}.
Proof.
  unfold regex_out, items, astype_string. simpl. revert index.
  induction vals as [|v vals IH]; intros [|i index]; simpl; try done.
  rewrite IH. f_equal.
  unfold regex_cell_out, _regex_mismatch. by destruct v.
Qed.

(** The type [string] never fails and changes the range check only: for a
    rule of type [string] without [min] and [max], the pass gives the
    violations of the same rule without type, no "Type mismatch" among
    them, since a null cell stays null and the text of a text is the
    text. *)
Theorem string_type_changes_range_only `{Runtime} df rule :
  r_type rule = Some "string" ->
  r_min rule = None -> r_max rule = None ->
  rule_result df rule = rule_result df (without_type rule)
  /\ rule_errors df rule = rule_errors df (without_type rule).
Proof.
  intros Ht Hmin Hmax.
  assert (Hout : rule_outcome df rule = rule_outcome df (without_type rule)).
  { unfold rule_outcome. simpl.
    destruct (r_column rule) as [[|c col']|]; try done.
    set (col := String c col').
    destruct (getitem df col) as [s0|]; [|done].
    unfold coerce_out. simpl. rewrite Ht. simpl.
    unfold type_mismatch_out. simpl.
    rewrite astype_string_isna, select_null_and_not_null.
    unfold checks_out, regex_part. simpl. rewrite Hmin, Hmax. simpl.
    unfold not_null_out. simpl. rewrite astype_string_isna.
    destruct (r_regex rule) as [pat|]; [|done].
    destruct (re_compile pat) as [pattern|]; [|done].
    destruct s0 as [index vals]. simpl.
    by rewrite regex_out_astype_string. }
  by rewrite !rule_result_eq, !rule_errors_eq, Hout.
Qed.

Lemma string_type_changes_range_only_witness :
  rule_errors (H := Reference.runtime) Examples.emails
    (Examples.with_type "string" Examples.email_rule)
  = rule_errors (H := Reference.runtime) Examples.emails
      (without_type (Examples.with_type "string" Examples.email_rule)).
Proof.
  apply (string_type_changes_range_only (H := Reference.runtime));
    reflexivity.
Defined.

(** *** The range check, cell by cell *)

(** What the range loop appends for one cell is one of six lists: nothing,
    "below min", "above max", both in that order, "Range check failed", or
    "below min" followed by "Range check failed".  So a cell gets at most
    two range violations, "Range check failed" at most once and always
    last, and never together with "above max". *)
Theorem range_cell_outcomes `{Runtime} col lo hi idx val st :
  exists out,
    range_check col lo hi idx val st = (Ok tt, add_errors out st)
    /\ (out = []
        \/ (exists m, lo = Some m /\ out = [below_min col idx val m])
        \/ (exists m, hi = Some m /\ out = [above_max col idx val m])
        \/ (exists m m',
              lo = Some m /\ hi = Some m'
              /\ out = [below_min col idx val m; above_max col idx val m'])
        \/ out = [range_failed col idx]
        \/ (exists m,
              lo = Some m
              /\ out = [below_min col idx val m; range_failed col idx])).
Proof.
  exists (range_cell_out col lo hi idx val).
  split; [by apply (range_check_runs (st_df_local st))|].
  unfold range_cell_out, min_part, max_part.
  destruct (isna val); [by left|].
  destruct lo as [m|], hi as [m'|]; simpl;
    repeat match goal with
      | |- context [_maybe_cast ?a ?b ≫= ?f] =>
          destruct (_maybe_cast a b ≫= f) as [[|]|?]; simpl
      end; eauto 12.
Qed.





(** The cells of a column cast to [Int64]: integers of numpy and nulls. *)
Lemma astype_Int64_cells vals cs c :
  astype_Int64 vals = Ok cs -> In c cs -> is_masked_int c = true.
Proof.
  revert cs. induction vals as [|v vals IH]; intros cs; simpl.
  - by intros [= <-].
  - destruct (astype_Int64_cell v) as [c0|] eqn:Hv; simpl; [|done].
    destruct (astype_Int64 vals) as [cs'|]; simpl; [|done].
    intros [= <-] [<-|Hin]; [|by eapply IH].
    destruct v; simplify_eq/=; try done. by case_match; simplify_eq.
Qed.

(** The bound is not cast for a cell that is neither an [int], a [float]
    nor a date.  So with the type [int], whose cells are integers of
    numpy, a [min] given as text makes "Range check failed" the one range
    violation of every non-null cell, whatever [max] is; and a numeric
    [min] does the same to every cell of a text column. *)
Theorem uncast_bound_fails `{Runtime} :
  (forall col hi idx n b,
      range_cell_out col (Some (VStr b)) hi idx (VNpInt n)
      = [range_failed col idx])
  /\ (forall col hi idx text m,
        is_Some (as_number m) ->
        range_cell_out col (Some m) hi idx (VStr text)
        = [range_failed col idx])
  /\ (forall df rule col s0 s tout b p idx c,
        r_column rule = Some col -> col <> "" ->
        getitem df col = Some s0 ->
        r_type rule = Some "int" ->
        coerce_out df rule col s0 = Ok (s, tout) ->
        r_min rule = Some (VStr b) ->
        s_index s !! p = Some idx -> s_values s !! p = Some c ->
        isna c = false ->
        In (range_failed col idx) (rule_errors df rule)
        /\ forall m, ~ In (below_min col idx c m) (range_cell_out col (r_min rule) (r_max rule) idx c)).
Proof.
  split; [|split].
  - intros col hi idx n b. done.
  - intros col hi idx text m [a Ha].
    unfold range_cell_out, min_part, _maybe_cast. simpl.
    by destruct m.
  - intros df rule col s0 s tout b p idx c Hcol Hne Hget Ht Hco Hmin Hp Hc Hna.
    assert (Hcell : exists n, c = VNpInt n).
    { unfold coerce_out in Hco. rewrite Ht in Hco. simpl in Hco.
      unfold _coerce_series_to_type in Hco. simpl in Hco.
      destruct (astype_Int64 _) as [cs|] eqn:Hcs; simplify_eq/=.
      assert (Hin : In c cs) by (apply in_lookup; eauto).
      apply (astype_Int64_cells _ _ _ Hcs) in Hin.
      destruct c; simplify_eq/=. eauto. }
    destruct Hcell as [n ->].
    assert (Hout : range_cell_out col (r_min rule) (r_max rule) idx (VNpInt n)
                   = [range_failed col idx]) by by rewrite Hmin.
    split.
    + rewrite rule_errors_eq.
      rewrite (rule_outcome_present df rule col s0 s tout) by done. simpl.
      unfold checks_out. rewrite Hmin. simpl. rewrite !in_app_iff.
      right; left; right; right. apply in_range_out.
      exists p, idx, (VNpInt n). rewrite Hmin in Hout. rewrite Hout.
      split; [done|]. split; [done|]. by left.
    + intros m. rewrite Hout. by intros [?|[]].
Qed.

Lemma uncast_bound_fails_witness :
  In (range_failed "age" 2)
    (rule_errors (H := Reference.runtime) Examples.users
       (Examples.with_range (Some (VStr "0")) None
          (Examples.with_type "int" (Examples.on_column "age")))).
Proof.
  apply (proj2 (proj2 (uncast_bound_fails (H := Reference.runtime)))
           Examples.users
           (Examples.with_range (Some (VStr "0")) None
              (Examples.with_type "int" (Examples.on_column "age")))
           "age"
           {| s_index := [0; 1; 2];
              s_values := [VInt 10; VNull; VInt 200] |}
           {| s_index := [0; 1; 2];
              s_values := [VNpInt 10; VNull; VNpInt 200] |}
           [] "0" 2%nat 2 (VNpInt 200));
    try reflexivity.
  discriminate.
Defined.

(** *** Duplicates *)

Lemma eqb_sym a b : eqb a b = eqb b a.
Proof.
  destruct a as [| n | n | q | s | d], b as [| n' | n' | q' | s' | d'];
    simpl; try done; try apply Qeq_bool_comm.
  - apply String.eqb_sym.
  - by rewrite (Z.eqb_sym (year d)), (Z.eqb_sym (month d)),
               (Z.eqb_sym (day d)).
Qed.

Lemma duplicate_violation_iff `{Runtime} df rule col raw i :
  r_column rule = Some col -> col <> "" ->
  r_unique rule = true ->
  df_columns df !! col = Some raw ->
  rule_result df rule = Ok tt ->
  In {| row := Some i; column := col; error := "Duplicate value found" |}
    (rule_errors df rule)
  <-> exists p, df_index df !! p = Some i /\ duplicated raw !! p = Some true.
Proof.
  intros Hcol Hne Huniq Hraw Hok.
  assert (Hget : getitem df col
                 = Some {| s_index := df_index df; s_values := raw |})
    by (apply getitem_Some; eauto).
  destruct (rule_result_present df rule col _ Hcol Hne Hget Hok)
    as (s & tout & Hco & Hre & ->).
  assert (Hdup : df_duplicated df col = duplicated raw)
    by (unfold df_duplicated; by rewrite Hraw).
  unfold checks_out, regex_part. rewrite Huniq, !in_app_iff. split.
  - intros [Hv|[[Hv|[Hv|Hv]]|Hv]].
    + other_check Hv.
    + destruct (r_not_null rule); [other_check Hv | done].
    + apply in_unique_out in Hv as (j & p & [= <-] & Hp & Hm).
      rewrite Hdup in Hm. eauto.
    + destruct (_ || _); [other_check Hv | done].
    + destruct (r_regex rule) as [pat|]; [|done].
      destruct (re_compile pat); [other_check Hv | done].
  - intros (p & Hp & Hm).
    right; left; right; left. apply in_unique_out. exists i, p.
    by rewrite Hdup.
Qed.

(** A row is never alone in being reported as a duplicate: on a table whose
    columns have one cell per row, a "Duplicate value found" violation for
    a row comes with one for another position of the table, and for
    another row label when the labels of the index are distinct. *)
Theorem duplicates_come_in_pairs `{Runtime} df rule col raw i :
  wf df ->
  r_column rule = Some col -> col <> "" ->
  r_unique rule = true ->
  df_columns df !! col = Some raw ->
  rule_result df rule = Ok tt ->
  let duplicate j := {| row := Some j; column := col;
                        error := "Duplicate value found" |} in
  In (duplicate i) (rule_errors df rule) ->
  exists p q j,
    p <> q /\ df_index df !! p = Some i /\ df_index df !! q = Some j
    /\ In (duplicate j) (rule_errors df rule)
    /\ (NoDup (df_index df) -> j <> i).
Proof.
  intros Hwf Hcol Hne Huniq Hraw Hok duplicate Hin.
  apply (duplicate_violation_iff df rule col raw i Hcol Hne Huniq Hraw Hok)
    in Hin as (p & Hp & Hm).
  apply lookup_duplicated in Hm as (v & q & w & Hv & Hqp & Hw & Heq).
  assert (Hq : is_Some (df_index df !! q)).
  { apply lookup_lt_is_Some. rewrite <- (Hwf col raw Hraw).
    by eapply lookup_lt_Some. }
  destruct Hq as [j Hj].
  exists p, q, j. split; [done|]. split; [done|]. split; [done|].
  split.
  - apply (duplicate_violation_iff df rule col raw j Hcol Hne Huniq Hraw Hok).
    exists q. split; [done|]. apply lookup_duplicated.
    exists w, p, v. rewrite eqb_sym. auto.
  - intros Hnodup ->. apply Hqp. by eapply NoDup_lookup.
Qed.

Lemma duplicates_come_in_pairs_witness :
  exists p q j,
    p <> q /\ df_index Examples.codes !! p = Some 1
    /\ df_index Examples.codes !! q = Some j
    /\ In {| row := Some j; column := "code";
             error := "Duplicate value found" |}
         (rule_errors (H := Reference.runtime) Examples.codes
            Examples.unique_code)
    /\ (NoDup (df_index Examples.codes) -> j <> 1).
Proof.
  apply (duplicates_come_in_pairs (H := Reference.runtime) Examples.codes
           Examples.unique_code "code" [VInt 1; VInt 2; VInt 2; VInt 3] 1).
  - intros c vs Hc.
    destruct (decide (c = "code")) as [->|Hne].
    + vm_compute in Hc. by simplify_eq.
    + unfold Examples.codes, Examples.table in Hc. simpl in Hc.
      rewrite lookup_insert_ne in Hc by done. by rewrite lookup_empty in Hc.
  - reflexivity.
  - discriminate.
  - reflexivity.
  - vm_compute. reflexivity.
  - vm_compute. reflexivity.
  - vm_compute. by left.
Defined.

(** *** The numeric types *)

Lemma to_numeric_lookup `{Runtime} vals p x :
  vals !! p = Some x ->
  exists c, to_numeric vals !! p = Some c
            /\ (isna c = true <-> to_numeric_cell x = None).
Proof.
  intros Hp. unfold to_numeric.
  destruct (forallb is_masked_int vals) eqn:Hmasked.
  { exists x. split; [done|].
    rewrite forallb_forall in Hmasked.
    assert (Hx : is_masked_int x = true)
      by (apply Hmasked, in_lookup; eauto).
    by destruct x. }
  destruct (forallb is_inl (map to_numeric_cell vals)) eqn:Hint.
  - rewrite forallb_forall in Hint.
    assert (Hx : is_inl (to_numeric_cell x) = true).
    { apply Hint, in_map, in_lookup. eauto. }
    rewrite !lookup_map, Hp. simpl.
    destruct (to_numeric_cell x) as [[n|q]|]; try done.
    exists (VInt n). done.
  - rewrite !lookup_map, Hp. simpl.
    destruct (to_numeric_cell x) as [[n|q]|]; eexists; (split; [done|]);
      done.
Qed.

Lemma astype_Int64_lookup vals cs p v :
  astype_Int64 vals = Ok cs -> vals !! p = Some v ->
  exists c, cs !! p = Some c /\ isna c = isna v.
Proof.
  revert cs p. induction vals as [|v0 vals IH]; intros cs p; simpl; [done|].
  destruct (astype_Int64_cell v0) as [c0|] eqn:Hv; simpl; [|done].
  destruct (astype_Int64 vals) as [cs'|]; simpl; [|done].
  intros [= <-]. destruct p as [|p]; simpl.
  - intros [= <-]. exists c0. split; [done|].
    destruct v0; simplify_eq/=; try done. by case_match; simplify_eq.
  - by apply IH.
Qed.

(** For the types [int] and [float], when the pass returns, "Type mismatch"
    is appended for a row exactly when its cell is not null and
    [pd.to_numeric] reads no number in it: a text that is no number, or a
    date. *)
Theorem numeric_type_mismatch_iff `{Runtime} df rule col t raw :
  r_column rule = Some col -> col <> "" ->
  r_type rule = Some t -> t = "int" \/ t = "float" ->
  df_columns df !! col = Some raw ->
  rule_result df rule = Ok tt ->
  forall i,
    In {| row := Some i; column := col;
          error := "Type mismatch: expected " ++ t |} (rule_errors df rule)
    <-> exists p x,
          df_index df !! p = Some i /\ raw !! p = Some x
          /\ isna x = false /\ to_numeric_cell x = None.
Proof.
  intros Hcol Hne Ht Hnum Hraw Hok i.
  assert (Hget : getitem df col
                 = Some {| s_index := df_index df; s_values := raw |})
    by (apply getitem_Some; eauto).
  destruct (rule_result_present df rule col _ Hcol Hne Hget Hok)
    as (s & tout & Hco & Hre & ->).
  assert (Hcells : forall p x,
             raw !! p = Some x ->
             exists c, s_values s !! p = Some c
                       /\ (isna c = true <-> to_numeric_cell x = None)).
  { intros p x Hp. unfold coerce_out in Hco. rewrite Ht in Hco.
    destruct (to_numeric_lookup raw p x Hp) as (c & Hc & Hiff).
    destruct Hnum as [-> | ->]; simpl in Hco;
      unfold _coerce_series_to_type in Hco; simpl in Hco.
    - destruct (astype_Int64 _) as [cs|] eqn:Hcs; simplify_eq/=.
      destruct (astype_Int64_lookup _ _ _ _ Hcs Hc) as (c' & Hc' & Hna).
      exists c'. by rewrite Hna.
    - simplify_eq/=. eauto. }
  assert (Htout : tout = type_mismatch_out col t (df_index df) raw (s_values s)).
  { unfold coerce_out in Hco. rewrite Ht in Hco.
    destruct Hnum as [-> | ->]; simpl in Hco;
      unfold _coerce_series_to_type in Hco; simpl in Hco.
    - destruct (astype_Int64 _); by simplify_eq/=.
    - by simplify_eq/=. }
  unfold checks_out, regex_part. rewrite !in_app_iff. split.
  - intros [Hv|[[Hv|[Hv|Hv]]|Hv]].
    + rewrite Htout in Hv.
      apply in_type_mismatch_out in Hv
        as (j & p & x & c & [= <-] & Hp & Hx & Hc & Hnx & Hnc).
      destruct (Hcells p x Hx) as (c' & Hc' & Hiff).
      exists p, x. repeat split; try done. apply Hiff. congruence.
    + destruct (r_not_null rule); [other_check Hv | done].
    + destruct (r_unique rule); [other_check Hv | done].
    + destruct (_ || _); [other_check Hv | done].
    + destruct (r_regex rule) as [pat|]; [|done].
      destruct (re_compile pat); [other_check Hv | done].
  - intros (p & x & Hp & Hx & Hnx & Hnone). left. rewrite Htout.
    destruct (Hcells p x Hx) as (c & Hc & Hiff).
    apply in_type_mismatch_out. exists i, p, x, c.
    repeat split; try done. by apply Hiff.
Qed.

Lemma numeric_type_mismatch_iff_witness :
  In {| row := Some 0; column := "n"; error := "Type mismatch: expected float" |}
    (rule_errors (H := Reference.runtime) Examples.mixed
       (Examples.with_type "float" (Examples.on_column "n")))
  <-> exists p x,
        df_index Examples.mixed !! p = Some 0
        /\ [VStr "abc"; VInt 3; VNull] !! p = Some x
        /\ isna x = false
        /\ to_numeric_cell (H := Reference.runtime) x = None.
Proof.
  apply (numeric_type_mismatch_iff (H := Reference.runtime) Examples.mixed
           (Examples.with_type "float" (Examples.on_column "n")) "n" "float"
           [VStr "abc"; VInt 3; VNull]);
    [reflexivity | discriminate | reflexivity | by right
    | vm_compute; reflexivity | vm_compute; reflexivity].
Defined.

(** *** The column of a violation *)

(** Every violation of a pass names the column of its rule, or "-" when
    the rule has no column. *)
Theorem violations_name_the_column `{Runtime} df rule v :
  In v (rule_errors df rule) ->
  column v = match r_column rule with
             | None | Some "" => "-"
             | Some col => col
             end.
Proof.
  rewrite rule_errors_eq. unfold rule_outcome.
  destruct (r_column rule) as [[|c col']|]; simpl;
    try by intros [<-|[]].
  set (col := String c col').
  destruct (getitem df col) as [s0|] eqn:Hget; simpl; [|by intros [<-|[]]].
  destruct (coerce_out df rule col s0) as [[s tout]|e] eqn:Hco; [|done].
  destruct (regex_part rule col s) as [r re_out] eqn:Hre. simpl.
  unfold checks_out. rewrite !in_app_iff.
  intros [Hv|[[Hv|[Hv|Hv]]|Hv]].
  - by eapply in_coerce_out in Hv as (? & ? & ->).
  - destruct (r_not_null rule); [|done].
    by apply in_not_null_out in Hv as (? & ? & ? & -> & _).
  - destruct (r_unique rule); [|done].
    by apply in_unique_out in Hv as (? & ? & -> & _).
  - destruct (_ || _); [|done].
    apply in_range_out in Hv as (? & ? & ? & _ & _ & Hv).
    by apply in_range_cell_out in Hv as [_ [(? & _ & ->)|[(? & _ & ->)| ->]]].
  - unfold regex_part in Hre.
    destruct (r_regex rule) as [pat|]; simplify_eq/=; [|done].
    destruct (re_compile pat); simplify_eq/=; [|done].
    by apply in_regex_out in Hv as (? & ? & ? & _ & _ & _ & _ & ->).
Qed.

Lemma violations_name_the_column_witness :
  column {| row := Some 1; column := "email";
            error := "Regex mismatch: bad@" |} = "email".
Proof.
  apply (violations_name_the_column (H := Reference.runtime)
           Examples.emails Examples.email_rule).
  vm_compute. by left.
Defined.

(* ===================================================================== *)
(** ** validator/report.py *)
(* ===================================================================== *)

Module ReportText.
Import Core.

Definition newline : string := String (ascii_of_nat 10) "".

(** What an f-string inserts for a boolean. *)
Definition format_bool (b : bool) : string := if b then "True" else "False".

(** The line of one violation: [e.get("row", "-")], [e.get("column", "-")]
    and [e.get("error", "-")] in the sentence of the report. *)
Definition error_line (e : Violation) : string :=
  "- Row `" +:+ from_option pretty "-" (row e) +:+ "`, Column `"
    +:+ column e +:+ "` → " +:+ error e.

(** [render_markdown(results)] *)
Definition render_markdown (results : Report) : string :=
  let lines :=
    ["# Data Validation Report" +:+ newline;
     "- **Rows checked:** " +:+ pretty (rows_checked (summary results));
     "- **Rows failed:** " +:+ pretty (rows_failed (summary results));
     "- **Validation passed:** "
       +:+ format_bool (validation_passed (summary results)) +:+ newline] in
  let lines :=
    match errors results with
    | [] => lines ++ ["No errors 🎉"]
    | _ :: _ => (lines ++ ["## Errors"]) ++ map error_line (errors results)
    end in
  String.concat newline lines.

End ReportText.

(** The Markdown of a report of [validate_data] does not contradict
    itself: it reads "Validation passed: True" together with
    "Rows failed: 0" and "No errors", or "Validation passed: False"
    together with a section "## Errors" that holds one line for each
    violation, in the order of the report. *)
Theorem markdown_agrees_with_summary `{Runtime} df config rep :
  validate_data df config = Ok rep ->
  let head passed failed :=
    ["# Data Validation Report" +:+ ReportText.newline;
     "- **Rows checked:** " +:+ pretty (length (df_index df));
     "- **Rows failed:** " +:+ pretty failed;
     "- **Validation passed:** " +:+ ReportText.format_bool passed
       +:+ ReportText.newline] in
  (validation_passed (summary rep) = true ->
   ReportText.render_markdown rep
   = String.concat ReportText.newline (head true 0%nat ++ ["No errors 🎉"]))
  /\ (validation_passed (summary rep) = false ->
      errors rep <> []
      /\ ReportText.render_markdown rep
         = String.concat ReportText.newline
             (head false (rows_failed (summary rep)) ++ ["## Errors"]
              ++ map ReportText.error_line (errors rep))).
Proof.
  intros [_ ->]%validate_data_ok head.
  set (errs := flat_map (rule_errors df) (default [] (cfg_rules config))).
  unfold ReportText.render_markdown. simpl.
  destruct errs as [|e errs]; simpl.
  - split; [done | done].
  - split; [done|]. intros _. by split.
Qed.

Lemma markdown_agrees_with_summary_witness :
  ReportText.render_markdown Examples.ghost_report
  = String.concat ReportText.newline
      (["# Data Validation Report" +:+ ReportText.newline;
        "- **Rows checked:** 3";
        "- **Rows failed:** 0";
        "- **Validation passed:** False" +:+ ReportText.newline]
       ++ ["## Errors"]
       ++ ["- Row `-`, Column `ghost` → Column not found in dataset"]).
Proof.
  destruct (markdown_agrees_with_summary (H := Reference.runtime)
              Examples.users Examples.ghost_rules Examples.ghost_report)
    as [_ Hfailed]; [vm_compute; reflexivity|].
  destruct (Hfailed eq_refl) as [_ Htext]. exact Htext.
Defined.

(* ===================================================================== *)
(** ** validator/loader.py and the upload of app.py *)
(* ===================================================================== *)

Module Loader.
Import Py Pandas.
Local Open Scope Z_scope.

Definition chars (s : string) : list ascii := list_ascii_of_string s.

(** [p.rfind(c)], scanning from the left: [i] is the index of the head of
    [l], [last] the index of the last [c] met so far (-1 for none). *)
Fixpoint rfind_from (c : ascii) (l : list ascii) (i last : Z) : Z :=
  match l with
  | [] => last
  | x :: l' => rfind_from c l' (i + 1) (if Ascii.eqb x c then i else last)
  end.

Definition rfind (c : ascii) (l : list ascii) : Z := rfind_from c l 0 (-1).

(** [p[lo:hi]] for [0 <= lo] *)
Definition slice (lo hi : Z) (l : list ascii) : list ascii :=
  take (Z.to_nat (hi - lo)) (drop (Z.to_nat lo) l).

(** The loop of [splitext] that skips leading dots: whether some
    character of the slice is not [c]. *)
Fixpoint has_other_than (c : ascii) (l : list ascii) : bool :=
  match l with
  | [] => false
  | x :: l' => if Ascii.eqb x c then has_other_than c l' else true
  end.

(** [os.path.splitext(p)] with the separator [/]. *)
Definition splitext (p : string) : string * string :=
  let l := chars p in
  let sepIndex := rfind "/" l in
  let dotIndex := rfind "." l in
  if (sepIndex <? dotIndex)
     && has_other_than "." (slice (sepIndex + 1) dotIndex l)
  then (string_of_list_ascii (take (Z.to_nat dotIndex) l),
        string_of_list_ascii (drop (Z.to_nat dotIndex) l))
  else (p, "").

(** [s.lower()] on ASCII text. *)
Definition lower_char (c : ascii) : ascii :=
  let n := N_of_ascii c in
  if ((65 <=? n) && (n <=? 90))%N then ascii_of_N (n + 32) else c.

Definition lower (s : string) : string :=
  string_of_list_ascii (map lower_char (chars s)).

(** [name.split(".")[-1]]: what follows the last dot, the whole name when
    it has none. *)
Definition last_part (name : string) : string :=
  let l := chars name in
  string_of_list_ascii (drop (Z.to_nat (rfind "." l + 1)) l).

(** The readers of pandas, which the loaders hand a path or a buffer. *)
Record Readers := {
  read_csv : string -> result DataFrame;
  read_json : string -> result DataFrame;
  read_json_lines : string -> result DataFrame;
  read_parquet : string -> result DataFrame;
  read_excel : string -> result DataFrame
}.

(** [try: return pd.read_json(x) except ValueError: return
    pd.read_json(x, lines=True)] *)
Definition read_json_or_lines (io : Readers) (x : string) : result DataFrame :=
  match read_json io x with
  | Raise ValueError => read_json_lines io x
  | r => r
  end.

(** [load_data(path)] *)
Definition load_data (io : Readers) (path : string) : result DataFrame :=
  let ext := lower (snd (splitext path)) in
  if String.eqb ext ".csv" then read_csv io path
  else if String.eqb ext ".json" then read_json_or_lines io path
  else if String.eqb ext ".parquet" then read_parquet io path
  else if String.eqb ext ".xls" || String.eqb ext ".xlsx"
       then read_excel io path
  else Raise ValueError.

(** [_load_df_from_upload(uploaded)] of [app.py], for an upload with the
    name [name] and the content [data]. *)
Definition _load_df_from_upload (io : Readers) (name data : string)
  : result DataFrame :=
  let suffix := lower (last_part name) in
  if String.eqb suffix "csv" then read_csv io data
  else if String.eqb suffix "json" then read_json_or_lines io data
  else if String.eqb suffix "parquet" then read_parquet io data
  else if String.eqb suffix "xls" || String.eqb suffix "xlsx"
       then read_excel io data
  else Raise ValueError.

(** *** [rfind] *)

Lemma rfind_from_app c a b i last :
  rfind_from c (a ++ b) i last
  = rfind_from c b (i + Z.of_nat (length a)) (rfind_from c a i last).
Proof.
  revert i last. induction a as [|x a IH]; intros i last; simpl.
  - by rewrite Z.add_0_r.
  - rewrite IH. f_equal. lia.
Qed.

Lemma rfind_from_absent c l i last :
  ~ In c l -> rfind_from c l i last = last.
Proof.
  revert i last. induction l as [|x l IH]; intros i last Hc; simpl; [done|].
  destruct (Ascii.eqb_spec x c) as [->|_].
  - destruct Hc. by left.
  - apply IH. intros ?. apply Hc. by right.
Qed.

Lemma rfind_from_bounds c l i last :
  last < i -> last <= rfind_from c l i last < i + Z.of_nat (length l).
Proof.
  revert i last. induction l as [|x l IH]; intros i last Hlt; simpl; [lia|].
  destruct (Ascii.eqb x c).
  - specialize (IH (i + 1) i). lia.
  - specialize (IH (i + 1) last). lia.
Qed.

(** The last [c] of [a ++ c :: b], when [b] has none. *)
Lemma rfind_last c a b :
  ~ In c b -> rfind c (a ++ c :: b) = Z.of_nat (length a).
Proof.
  intros Hb. unfold rfind. rewrite rfind_from_app. simpl.
  rewrite Ascii.eqb_refl. by rewrite rfind_from_absent.
Qed.

Lemma rfind_prefix c a b :
  ~ In c b -> rfind c (a ++ b) = rfind c a.
Proof.
  intros Hb. unfold rfind. rewrite rfind_from_app. by apply rfind_from_absent.
Qed.

Lemma rfind_bounds c l : -1 <= rfind c l < Z.of_nat (length l).
Proof. unfold rfind. pose proof (rfind_from_bounds c l 0 (-1)). lia. Qed.

Lemma has_other_than_app c a b :
  has_other_than c (a ++ b) = has_other_than c a || has_other_than c b.
Proof.
  induction a as [|x a IH]; simpl; [done|]. by destruct (Ascii.eqb x c).
Qed.

Lemma chars_app a b : chars (a +:+ b) = chars a ++ chars b.
Proof. unfold chars. induction a as [|x a IH]; simpl; [done|]. by rewrite IH. Qed.

Lemma string_of_chars_app a b :
  string_of_list_ascii (a ++ b)
  = string_of_list_ascii a +:+ string_of_list_ascii b.
Proof. induction a as [|x a IH]; simpl; [done|]. by rewrite IH. Qed.

Lemma lower_app a b : lower (a +:+ b) = lower a +:+ lower b.
Proof.
  unfold lower. by rewrite chars_app, map_app, string_of_chars_app.
Qed.

End Loader.

Import Loader.

Lemma string_of_chars (s : string) : string_of_list_ascii (chars s) = s.
Proof. apply string_of_list_ascii_of_string. Qed.

(** The extension [splitext] finds: for a path that ends with a name
    [stem.ext], where [ext] has neither dot nor slash and [stem] has no
    slash and a character that is not a dot, the extension is [.ext]. *)
Lemma splitext_extension prefix stem ext :
  ~ In "/"%char (chars stem) -> ~ In "/"%char (chars ext) ->
  ~ In "."%char (chars ext) ->
  has_other_than "." (chars stem) = true ->
  splitext (prefix +:+ stem +:+ "." +:+ ext)
  = (prefix +:+ stem, "." +:+ ext).
Proof.
  intros Hstem Hext Hdot Hname. unfold splitext.
  rewrite !chars_app. change (chars ".") with ["."%char]. simpl.
  set (a := chars prefix). set (b := chars stem) in *.
  set (c := chars ext) in *.
  assert (Hdotidx : rfind "." (a ++ b ++ "."%char :: c)
                    = Z.of_nat (length a + length b)).
  { rewrite app_assoc, rfind_last by done. by rewrite length_app. }
  assert (Hsepidx : rfind "/" (a ++ b ++ "."%char :: c) = rfind "/" a).
  { apply rfind_prefix. rewrite in_app_iff. intros [?|[?|?]]; done. }
  rewrite Hdotidx, Hsepidx.
  pose proof (rfind_bounds "/" a) as Hbounds.
  set (sep := rfind "/" a) in *.
  assert (Hslice : slice (sep + 1) (Z.of_nat (length a + length b))
                     (a ++ b ++ "."%char :: c)
                   = drop (Z.to_nat (sep + 1)) a ++ b).
  { unfold slice. rewrite drop_app_le by lia.
    rewrite app_assoc. apply take_app_length'.
    rewrite length_app, length_drop. lia. }
  rewrite Hslice, has_other_than_app, Hname, orb_true_r.
  replace (sep <? Z.of_nat (length a + length b))%Z with true
    by (symmetry; apply Z.ltb_lt; lia).
  simpl. rewrite Nat2Z.id.
  rewrite (app_assoc a b), <- length_app.
  rewrite take_app_length, drop_app_length.
  rewrite string_of_chars_app. unfold a, b, c. simpl.
  by rewrite !string_of_chars.
Qed.

Lemma has_other_than_dots l :
  Forall (eq "."%char) l -> has_other_than "." l = false.
Proof. induction 1 as [|x l <- _ IH]; simpl; [done | exact IH]. Qed.

(** A name without extension: only leading dots, or no dot at all. *)
Lemma splitext_no_extension dir dots rest :
  chars dir = [] \/ (exists d, chars dir = d ++ ["/"%char]) ->
  Forall (eq "."%char) (chars dots) ->
  ~ In "."%char (chars rest) -> ~ In "/"%char (chars rest) ->
  snd (splitext (dir +:+ dots +:+ rest)) = "".
Proof.
  intros Hdir Hdots Hrest Hslash. unfold splitext.
  rewrite !chars_app.
  set (a := chars dir) in *. set (b := chars dots) in *.
  set (c := chars rest) in *. clearbody a b c.
  assert (Hb_slash : ~ In "/"%char b).
  { intros Hin. rewrite Forall_forall in Hdots.
    apply list_elem_of_In in Hin. by specialize (Hdots _ Hin). }
  assert (Hsep : rfind "/" (a ++ b ++ c) + 1 = Z.of_nat (length a)).
  { rewrite rfind_prefix by (rewrite in_app_iff; tauto).
    destruct Hdir as [-> | [d ->]]; [reflexivity|].
    rewrite rfind_last by (by intros []). rewrite length_app. simpl. lia. }
  destruct (has_other_than "." (slice _ _ _)) eqn:Hother;
    [|by rewrite andb_false_r].
  exfalso. revert Hother.
  destruct b as [|x b0 _] using rev_ind.
  - (* no dot in the name *)
    simpl. unfold slice.
    assert (Hdot : rfind "." (a ++ c) < Z.of_nat (length a)).
    { rewrite rfind_prefix by done. apply rfind_bounds. }
    simpl in Hsep. rewrite Hsep.
    replace (Z.to_nat (rfind "." (a ++ c) - Z.of_nat (length a))) with 0%nat
      by lia.
    by rewrite take_0.
  - (* leading dots only *)
    apply Forall_app in Hdots as [Hdots0 Hx].
    apply Forall_singleton in Hx as <-.
    rewrite Hsep. rewrite <- (app_assoc b0), (app_assoc a b0). simpl.
    rewrite rfind_last by done.
    unfold slice. rewrite Nat2Z.id, <- app_assoc, drop_app_length.
    rewrite length_app.
    replace (Z.to_nat (Z.of_nat (length a + length b0) - Z.of_nat (length a)))
      with (length b0) by lia.
    rewrite take_app_length. by rewrite has_other_than_dots.
Qed.

Lemma lower_dot ext : lower ("." +:+ ext) = "." +:+ lower ext.
Proof. by rewrite lower_app. Qed.

Lemma last_part_extension stem ext :
  ~ In "."%char (chars ext) -> last_part (stem +:+ "." +:+ ext) = ext.
Proof.
  intros Hdot. unfold last_part. rewrite !chars_app.
  change (chars ".") with ["."%char]. simpl.
  rewrite rfind_last by done.
  replace (Z.to_nat (Z.of_nat (length (chars stem)) + 1))
    with (length (chars stem ++ ["."%char]))
    by (rewrite length_app; simpl; lia).
  replace (chars stem ++ "."%char :: chars ext)
    with ((chars stem ++ ["."%char]) ++ chars ext)
    by (by rewrite <- app_assoc).
  rewrite drop_app_length. apply string_of_chars.
Qed.

Lemma last_part_no_extension dots rest :
  Forall (eq "."%char) (chars dots) -> ~ In "."%char (chars rest) ->
  last_part (dots +:+ rest) = rest.
Proof.
  intros Hdots Hrest. unfold last_part. rewrite chars_app.
  set (b := chars dots) in *. clearbody b.
  destruct b as [|x b0 _] using rev_ind.
  - simpl. unfold rfind. rewrite rfind_from_absent by done. simpl.
    apply string_of_chars.
  - apply Forall_app in Hdots as [_ Hx].
    apply Forall_singleton in Hx as <-.
    rewrite <- app_assoc. simpl. rewrite rfind_last by done.
    replace (Z.to_nat (Z.of_nat (length b0) + 1))
      with (length (b0 ++ ["."%char]))
      by (rewrite length_app; simpl; lia).
    replace (b0 ++ "."%char :: chars rest)
      with ((b0 ++ ["."%char]) ++ chars rest)
      by (by rewrite <- app_assoc).
    rewrite drop_app_length. apply string_of_chars.
Qed.

(** The readers agree on an uploaded content and a path: each gives for
    the content what it gives for the file at the path. *)
Definition same_content (io_buf io_path : Readers) (data path : string)
  : Prop :=
  read_csv io_buf data = read_csv io_path path
  /\ read_json io_buf data = read_json io_path path
  /\ read_json_lines io_buf data = read_json_lines io_path path
  /\ read_parquet io_buf data = read_parquet io_path path
  /\ read_excel io_buf data = read_excel io_path path.

(** Readers for the examples: JSON files hold one record per line, so
    that [read_json] fails on them with [ValueError]. *)
Definition line_files : Readers :=
  {| read_csv := fun _ => Ok Examples.users;
     read_json := fun _ => Raise ValueError;
     read_json_lines := fun _ => Ok Examples.codes;
     read_parquet := fun _ => Raise TypeError;
     read_excel := fun _ => Raise TypeError |}.

(** [load_data] chooses the reader by the extension of the file name,
    whatever its case: for a path ending in [stem.ext], [csv] goes to
    [read_csv], [json] to [read_json] and, when that raises [ValueError]
    and only then, to [read_json] with [lines=True], [parquet] to
    [read_parquet], [xls] and [xlsx] to [read_excel]; any other extension
    raises [ValueError] whatever the readers would do. *)
Theorem load_data_by_extension io prefix stem ext :
  ~ In "/"%char (chars stem) -> ~ In "/"%char (chars ext) ->
  ~ In "."%char (chars ext) ->
  has_other_than "." (chars stem) = true ->
  let path := prefix +:+ stem +:+ "." +:+ ext in
  (lower ext = "csv" -> load_data io path = read_csv io path)
  /\ (lower ext = "json" ->
      (read_json io path = Raise ValueError ->
       load_data io path = read_json_lines io path)
      /\ (read_json io path <> Raise ValueError ->
          load_data io path = read_json io path))
  /\ (lower ext = "parquet" -> load_data io path = read_parquet io path)
  /\ (lower ext = "xls" \/ lower ext = "xlsx" ->
      load_data io path = read_excel io path)
  /\ (~ In (lower ext) ["csv"; "json"; "parquet"; "xls"; "xlsx"] ->
      load_data io path = Raise ValueError).
Proof.
  intros Hstem Hext Hdot Hname path.
  assert (Hload : load_data io path
                  = let e := lower ext in
                    if String.eqb e "csv" then read_csv io path
                    else if String.eqb e "json"
                         then read_json_or_lines io path
                    else if String.eqb e "parquet" then read_parquet io path
                    else if String.eqb e "xls" || String.eqb e "xlsx"
                         then read_excel io path
                    else Raise ValueError).
  { unfold load_data, path.
    rewrite (splitext_extension prefix stem ext) by done.
    simpl snd. rewrite lower_dot. done. }
  rewrite Hload. simpl.
  split; [by intros ->|]. split; [|split; [by intros ->|split]].
  - intros ->. simpl. unfold read_json_or_lines. split.
    + by intros ->.
    + intros Hne. by destruct (read_json io path) as [?|[]].
  - by intros [-> | ->].
  - intros Hnot.
    destruct (String.eqb_spec (lower ext) "csv") as [Heq|_];
      [destruct Hnot; rewrite Heq; simpl; tauto|].
    destruct (String.eqb_spec (lower ext) "json") as [Heq|_];
      [destruct Hnot; rewrite Heq; simpl; tauto|].
    destruct (String.eqb_spec (lower ext) "parquet") as [Heq|_];
      [destruct Hnot; rewrite Heq; simpl; tauto|].
    destruct (String.eqb_spec (lower ext) "xls") as [Heq|_];
      [destruct Hnot; rewrite Heq; simpl; tauto|].
    destruct (String.eqb_spec (lower ext) "xlsx") as [Heq|_];
      [destruct Hnot; rewrite Heq; simpl; tauto|].
    done.
Qed.

Lemma load_data_by_extension_witness :
  load_data line_files "logs/2024.events.JSON" = Ok Examples.codes.
Proof.
  assert (Hl : lower "JSON" = "json") by reflexivity.
  assert (Hv : read_json line_files "logs/2024.events.JSON"
               = Raise ValueError) by reflexivity.
  refine (proj1 (proj1 (proj2 (load_data_by_extension line_files
                                 "logs/" "2024.events" "JSON" _ _ _ _))
                   Hl) Hv);
    first [reflexivity | vm_compute; intuition discriminate].
Defined.

(** A file name without extension, or with leading dots only (a hidden
    file such as [.csv]), is refused by [load_data] with [ValueError],
    whatever the readers would do. *)
Theorem load_data_needs_extension io dir dots rest :
  chars dir = [] \/ (exists d, chars dir = d ++ ["/"%char]) ->
  Forall (eq "."%char) (chars dots) ->
  ~ In "."%char (chars rest) -> ~ In "/"%char (chars rest) ->
  load_data io (dir +:+ dots +:+ rest) = Raise ValueError.
Proof.
  intros Hdir Hdots Hrest Hslash. unfold load_data.
  by rewrite (splitext_no_extension dir dots rest).
Qed.

Lemma load_data_needs_extension_witness :
  load_data line_files "exports/.csv" = Raise ValueError.
Proof.
  apply (load_data_needs_extension line_files "exports/" "." "csv").
  - right. by exists (chars "exports").
  - by repeat constructor.
  - vm_compute. intuition discriminate.
  - vm_compute. intuition discriminate.
Defined.

(** The upload of the application and [load_data] of the command line read
    a file alike: for a name [stem.ext] with a proper stem, when the
    readers give for the uploaded content what they give for the path,
    [_load_df_from_upload] returns or raises what [load_data] does. *)
Theorem upload_agrees_with_load_data io_buf io_path dir stem ext data :
  ~ In "/"%char (chars stem) -> ~ In "/"%char (chars ext) ->
  ~ In "."%char (chars ext) ->
  has_other_than "." (chars stem) = true ->
  same_content io_buf io_path data (dir +:+ stem +:+ "." +:+ ext) ->
  _load_df_from_upload io_buf (stem +:+ "." +:+ ext) data
  = load_data io_path (dir +:+ stem +:+ "." +:+ ext).
Proof.
  intros Hstem Hext Hdot Hname (Hcsv & Hjson & Hlines & Hparquet & Hexcel).
  unfold _load_df_from_upload, load_data.
  rewrite last_part_extension by done.
  rewrite (splitext_extension dir stem ext) by done.
  simpl snd. rewrite lower_dot. simpl.
  unfold read_json_or_lines.
  by rewrite Hcsv, Hjson, Hlines, Hparquet, Hexcel.
Qed.

Lemma upload_agrees_with_load_data_witness :
  _load_df_from_upload line_files "2024.events.JSON" "logs/2024.events.JSON"
  = load_data line_files "logs/2024.events.JSON".
Proof.
  apply (upload_agrees_with_load_data line_files line_files
           "logs/" "2024.events" "JSON");
    try (by vm_compute); try (vm_compute; intuition discriminate).
Defined.

(** Where the two loaders differ: an upload whose name has no stem before
    the extension, such as [csv] or [.csv], is read by the application as
    any file with that extension is, while [load_data] refuses the same
    name with [ValueError]. *)
Theorem upload_reads_what_load_data_refuses io io' dir dots rest stem data :
  chars dir = [] \/ (exists d, chars dir = d ++ ["/"%char]) ->
  Forall (eq "."%char) (chars dots) ->
  ~ In "."%char (chars rest) -> ~ In "/"%char (chars rest) ->
  _load_df_from_upload io (dots +:+ rest) data
  = _load_df_from_upload io (stem +:+ "." +:+ rest) data
  /\ load_data io' (dir +:+ dots +:+ rest) = Raise ValueError.
Proof.
  intros Hdir Hdots Hrest Hslash. split.
  - unfold _load_df_from_upload.
    by rewrite last_part_no_extension, last_part_extension.
  - unfold load_data. by rewrite (splitext_no_extension dir dots rest).
Qed.

Lemma upload_reads_what_load_data_refuses_witness :
  _load_df_from_upload line_files ".csv" "id,name" = Ok Examples.users
  /\ load_data line_files ".csv" = Raise ValueError.
Proof.
  destruct (upload_reads_what_load_data_refuses line_files line_files
              "" "." "csv" "users" "id,name") as [Hup Hload].
  - by left.
  - by repeat constructor.
  - vm_compute. intuition discriminate.
  - vm_compute. intuition discriminate.
  - split; [etransitivity; [exact Hup | reflexivity] | exact Hload].
Defined.
